(** * SierraWings drone fleet controller: model of [drone_controller.py]

    The development embeds the [DroneController] class: the discovery
    registry ([discovered_drones]), the announcement and command handlers,
    [send_command_to_drone], [get_discovered_drones] and [start_server],
    together with the JSON text codec ([json.dumps] / [json.loads]) the
    controller puts on the wire. *)

From Stdlib Require Import ZArith NArith List Ascii String Decimal DecimalN.
From stdpp Require Import gmap list fin_maps.

Local Open Scope N_scope.

Set Warnings "-register-all".

(** ** Python values *)

(** A Python [str] is a sequence of code points. *)
Abbreviation pystr := (list N).

Definition str (s : string) : pystr :=
  List.map N_of_ascii (list_ascii_of_string s).

(** A float is carried as the numeral that stands for it on the wire: the
    text [float.__repr__] writes, which [float()] reads back to the same
    float.  Arithmetic on floats is not modelled, and a numeral read from
    the wire is kept as read.  The two infinities and NaN are the constants
    [json] uses for them. *)
Inductive pyfloat :=
| FNum (lit : pystr)
| FInf (neg : bool)
| FNaN.

(** The values [json.loads] can return: None, bool, int, float, str, list
    and dict with [str] keys (in insertion order). *)
Inductive pyval :=
| PNone
| PBool (b : bool)
| PInt (z : Z)
| PFloat (f : pyfloat)
| PStr (s : pystr)
| PList (l : list pyval)
| PDict (d : list (pystr * pyval)).

Section pyval_induction.
Variable P : pyval → Prop.
Hypothesis HNone : P PNone.
Hypothesis HBool : ∀ b, P (PBool b).
Hypothesis HInt : ∀ z, P (PInt z).
Hypothesis HFloat : ∀ f, P (PFloat f).
Hypothesis HStr : ∀ s, P (PStr s).
Hypothesis HList : ∀ l, Forall P l → P (PList l).
Hypothesis HDict : ∀ d, Forall (λ kv, P kv.2) d → P (PDict d).

Fixpoint pyval_nested_ind (v : pyval) : P v :=
  match v with
  | PNone => HNone
  | PBool b => HBool b
  | PInt z => HInt z
  | PFloat f => HFloat f
  | PStr s => HStr s
  | PList l =>
      HList l ((fix go (l : list pyval) : Forall P l :=
                  match l with
                  | [] => List.Forall_nil P
                  | x :: l' => @List.Forall_cons _ P x l' (pyval_nested_ind x) (go l')
                  end) l)
  | PDict d =>
      HDict d ((fix go (d : list (pystr * pyval)) : Forall (λ kv, P kv.2) d :=
                  match d with
                  | [] => List.Forall_nil _
                  | kv :: d' =>
                      @List.Forall_cons _ (λ kv, P kv.2) kv d' (pyval_nested_ind kv.2) (go d')
                  end) d)
  end.
End pyval_induction.

(** [dict.get(key)] / [dict.get(key, default)] on a dict with [str] keys. *)
Fixpoint dict_lookup (d : list (pystr * pyval)) (k : pystr) : option pyval :=
  match d with
  | [] => None
  | (k', v) :: d' => if decide (k' = k) then Some v else dict_lookup d' k
  end.

Definition dict_get (d : list (pystr * pyval)) (k : pystr) (default : pyval) : pyval :=
  match dict_lookup d k with
  | Some v => v
  | None => default
  end.

(** [d[k] = v]: an existing key keeps its place, a new one goes last. *)
Fixpoint dict_set (d : list (pystr * pyval)) (k : pystr) (v : pyval)
  : list (pystr * pyval) :=
  match d with
  | [] => [(k, v)]
  | (k', v') :: d' =>
      if decide (k' = k) then (k', v) :: d' else (k', v') :: dict_set d' k v
  end.

(** [dict(pairs)] *)
Definition dict_of_pairs (pairs : list (pystr * pyval)) : list (pystr * pyval) :=
  fold_left (λ d kv, dict_set d kv.1 kv.2) pairs [].

(** ** The JSON text codec *)

Module Json.

(** Characters are written by their code points: 34 is the double quote,
    92 the backslash, 47 the slash, 117 the letter u, 123 and 125 the
    braces, 91 and 93 the brackets, 44 the comma, 58 the colon, 32 the
    space, 45 the minus sign, 43 the plus sign, 46 the full stop, 101 and 69
    the letters e and E, 48 to 57 the digits. *)

(** *** Encoder: [json.dumps] with its defaults ([ensure_ascii], separators
    [", "] and [": "]). *)

Definition hex_digit (n : N) : N := if n <? 10 then 48 + n else 87 + n.

(** ['{0:04x}'.format(n)] *)
Definition hex4 (n : N) : pystr :=
  [hex_digit (n / 4096 mod 16); hex_digit (n / 256 mod 16);
   hex_digit (n / 16 mod 16); hex_digit (n mod 16)].

Definition u_escape (n : N) : pystr := 92 :: 117 :: hex4 n.

(** The replacement [py_encode_basestring_ascii] makes for one character:
    the characters from space to tilde other than the quote and the
    backslash stand for themselves. *)
Definition escape_char (c : N) : pystr :=
  if c =? 34 then [92; 34]
  else if c =? 92 then [92; 92]
  else if c =? 10 then [92; 110]
  else if c =? 13 then [92; 114]
  else if c =? 9 then [92; 116]
  else if c =? 8 then [92; 98]
  else if c =? 12 then [92; 102]
  else if (32 <=? c) && (c <=? 126) then [c]
  else if c <? 65536 then u_escape c
  else
    let n := c - 65536 in
    u_escape (N.lor 55296 (N.land (N.shiftr n 10) 1023))
      ++ u_escape (N.lor 56320 (N.land n 1023)).

Definition encode_basestring_ascii (s : pystr) : pystr :=
  34 :: flat_map escape_char s ++ [34].

Definition digit_char (d : N) : N := 48 + d.

Fixpoint uint_chars (u : Decimal.uint) : pystr :=
  match u with
  | Nil => []
  | D0 u => 48 :: uint_chars u
  | D1 u => 49 :: uint_chars u
  | D2 u => 50 :: uint_chars u
  | D3 u => 51 :: uint_chars u
  | D4 u => 52 :: uint_chars u
  | D5 u => 53 :: uint_chars u
  | D6 u => 54 :: uint_chars u
  | D7 u => 55 :: uint_chars u
  | D8 u => 56 :: uint_chars u
  | D9 u => 57 :: uint_chars u
  end.

(** [sys.int_info.default_max_str_digits]: the most decimal digits an int
    may have to be written as text or read from it. *)
Definition max_str_digits : nat := 4300.

(** The decimal digits of [abs(z)]. *)
Definition int_digits (z : Z) : pystr := uint_chars (N.to_uint (Z.abs_N z)).

(** [int.__repr__]; [None] stands for the [ValueError] raised for an int of
    more than [max_str_digits] digits. *)
Definition int_repr (z : Z) : option pystr :=
  let digits := int_digits z in
  if (length digits <=? max_str_digits)%nat
  then Some (if (z <? 0)%Z then 45 :: digits else digits)
  else None.

(** [float.__repr__], with the constants of [allow_nan]. *)
Definition float_repr (f : pyfloat) : pystr :=
  match f with
  | FNum lit => lit
  | FInf false => str "Infinity"
  | FInf true => str "-Infinity"
  | FNaN => str "NaN"
  end.

Fixpoint join (sep : pystr) (parts : list pystr) : pystr :=
  match parts with
  | [] => []
  | [p] => p
  | p :: ps => p ++ sep ++ join sep ps
  end.

(** [json.dumps(v)].  [depth] is the nesting of lists and dicts the
    recursion limit still allows: the encoder enters a recursive call for
    each list and each dict, an empty one too.  [None] stands for the
    exception raised: [ValueError] from [int.__repr__], [RecursionError]
    when a list or dict is met with no depth left. *)
Fixpoint dumps (depth : nat) (v : pyval) {struct v} : option pystr :=
  match v with
  | PNone => Some (str "null")
  | PBool true => Some (str "true")
  | PBool false => Some (str "false")
  | PInt z => int_repr z
  | PFloat f => Some (float_repr f)
  | PStr s => Some (encode_basestring_ascii s)
  | PList l =>
      match depth with
      | O => None
      | S depth' =>
          match (fix items (l : list pyval) : option (list pystr) :=
                   match l with
                   | [] => Some []
                   | x :: l' =>
                       match dumps depth' x with
                       | Some text =>
                           match items l' with
                           | Some texts => Some (text :: texts)
                           | None => None
                           end
                       | None => None
                       end
                   end) l with
          | Some texts => Some (91 :: join (str ", ") texts ++ [93])
          | None => None
          end
      end
  | PDict d =>
      match depth with
      | O => None
      | S depth' =>
          match (fix items (d : list (pystr * pyval)) : option (list pystr) :=
                   match d with
                   | [] => Some []
                   | kv :: d' =>
                       match dumps depth' kv.2 with
                       | Some text =>
                           match items d' with
                           | Some texts =>
                               Some ((encode_basestring_ascii kv.1 ++ str ": " ++ text)
                                       :: texts)
                           | None => None
                           end
                       | None => None
                       end
                   end) d with
          | Some texts => Some (123 :: join (str ", ") texts ++ [125])
          | None => None
          end
      end
  end.

(** *** Decoder: [json.loads], that is [JSONDecoder.decode] over the scanner
    ([scan_once], [scanstring], [JSONObject], [JSONArray], [NUMBER_RE]). *)

Definition is_ws (c : N) : bool :=
  (c =? 32) || (c =? 9) || (c =? 10) || (c =? 13).

(** [WHITESPACE.match(s, end).end()] *)
Fixpoint skip_ws (s : pystr) : pystr :=
  match s with
  | c :: s' => if is_ws c then skip_ws s' else s
  | [] => []
  end.

Fixpoint strip_prefix (p s : pystr) : option pystr :=
  match p, s with
  | [], _ => Some s
  | a :: p', b :: s' => if a =? b then strip_prefix p' s' else None
  | _ :: _, [] => None
  end.

Definition hex_value (c : N) : option N :=
  if (48 <=? c) && (c <=? 57) then Some (c - 48)
  else if (97 <=? c) && (c <=? 102) then Some (c - 87)
  else if (65 <=? c) && (c <=? 70) then Some (c - 55)
  else None.

(** [_decode_uXXXX]: four hexadecimal digits. *)
Definition decode_uXXXX (a b c d : N) : option N :=
  match hex_value a, hex_value b, hex_value c, hex_value d with
  | Some a, Some b, Some c, Some d => Some (4096 * a + 256 * b + 16 * c + d)
  | _, _, _, _ => None
  end.

(** The table [BACKSLASH]. *)
Definition backslash (e : N) : option N :=
  if e =? 34 then Some 34
  else if e =? 92 then Some 92
  else if e =? 47 then Some 47
  else if e =? 98 then Some 8
  else if e =? 102 then Some 12
  else if e =? 110 then Some 10
  else if e =? 114 then Some 13
  else if e =? 116 then Some 9
  else None.

Definition is_high_surrogate (u : N) : bool := (55296 <=? u) && (u <=? 56319).
Definition is_low_surrogate (u : N) : bool := (56320 <=? u) && (u <=? 57343).

Definition combine_surrogates (u u2 : N) : N :=
  65536 + N.lor (N.shiftl (u - 55296) 10) (u2 - 56320).

Definition push_char (c : N) (r : option (pystr * pystr)) : option (pystr * pystr) :=
  match r with
  | Some (chars, rest) => Some (c :: chars, rest)
  | None => None
  end.

(** [scanstring(s, end)] in strict mode, [s] being the text after the
    opening quote: the string read and the text after the closing quote. *)
Fixpoint scanstring (s : pystr) : option (pystr * pystr) :=
  match s with
  | [] => None
  | c :: s1 =>
      if c =? 34 then Some ([], s1)
      else if c =? 92 then
        match s1 with
        | [] => None
        | e :: s2 =>
            if e =? 117 then
              match s2 with
              | a :: b :: c' :: d :: s3 =>
                  match decode_uXXXX a b c' d with
                  | None => None
                  | Some uni =>
                      match s3 with
                      | b1 :: b2 :: s3' =>
                          if is_high_surrogate uni && (b1 =? 92) && (b2 =? 117) then
                            match s3' with
                            | a2 :: b3 :: c2 :: d2 :: s4 =>
                                match decode_uXXXX a2 b3 c2 d2 with
                                | None => None
                                | Some uni2 =>
                                    if is_low_surrogate uni2
                                    then push_char (combine_surrogates uni uni2) (scanstring s4)
                                    else push_char uni (scanstring s3)
                                end
                            | _ => None
                            end
                          else push_char uni (scanstring s3)
                      | _ => push_char uni (scanstring s3)
                      end
                  end
              | _ => None
              end
            else
              match backslash e with
              | Some ch => push_char ch (scanstring s2)
              | None => None
              end
        end
      else if c <? 32 then None
      else push_char c (scanstring s1)
  end.

Definition is_digit (c : N) : bool := (48 <=? c) && (c <=? 57).

Fixpoint take_digits (s : pystr) : pystr * pystr :=
  match s with
  | c :: s' =>
      if is_digit c then let '(ds, r) := take_digits s' in (c :: ds, r) else ([], s)
  | [] => ([], [])
  end.

Definition digit_of_char (c : N) : Decimal.uint → Decimal.uint :=
  if c =? 48 then D0 else if c =? 49 then D1 else if c =? 50 then D2
  else if c =? 51 then D3 else if c =? 52 then D4 else if c =? 53 then D5
  else if c =? 54 then D6 else if c =? 55 then D7 else if c =? 56 then D8
  else D9.

Fixpoint chars_uint (ds : pystr) : Decimal.uint :=
  match ds with
  | [] => Nil
  | c :: ds' => digit_of_char c (chars_uint ds')
  end.

(** [int(text)] for the text of the integer group of [NUMBER_RE]; [None]
    stands for the [ValueError] raised for more than [max_str_digits]
    digits. *)
Definition int_of_text (neg : bool) (digits : pystr) : option Z :=
  if (length digits <=? max_str_digits)%nat then
    let n := Z.of_N (N.of_uint (chars_uint digits)) in
    Some (if neg then (- n)%Z else n)
  else None.

(** The optional fraction group [(\.[0-9]+)?]. *)
Definition match_frac (s : pystr) : pystr * pystr :=
  match s with
  | c :: r =>
      if c =? 46 then
        match take_digits r with
        | ([], _) => ([], s)
        | (fd, r1) => (46 :: fd, r1)
        end
      else ([], s)
  | [] => ([], s)
  end.

(** The optional exponent group [([eE][-+]?[0-9]+)?]. *)
Definition match_exp (s : pystr) : pystr * pystr :=
  match s with
  | e :: r =>
      if (e =? 101) || (e =? 69) then
        let '(sg, r1) :=
          match r with
          | c :: r0 => if (c =? 43) || (c =? 45) then ([c], r0) else ([], r)
          | [] => ([], r)
          end in
        match take_digits r1 with
        | ([], _) => ([], s)
        | (ed, r2) => (e :: sg ++ ed, r2)
        end
      else ([], s)
  | [] => ([], s)
  end.

(** The groups of [NUMBER_RE] after the optional minus sign: a single 0 or
    a digit from 1 to 9 followed by digits, then the optional fraction and
    exponent.  With a fraction or an exponent the text read is a float,
    otherwise an int, which [int()] may refuse. *)
Definition match_unsigned (neg : bool) (s : pystr) : option (pyval * pystr) :=
  match s with
  | [] => None
  | d :: r =>
      if is_digit d then
        let '(ip, r1) :=
          if d =? 48 then ([48], r)
          else let '(ds, r0) := take_digits r in (d :: ds, r0) in
        let '(frac, r2) := match_frac r1 in
        let '(exp, r3) := match_exp r2 in
        match frac, exp with
        | [], [] =>
            match int_of_text neg ip with
            | Some z => Some (PInt z, r3)
            | None => None
            end
        | _, _ =>
            Some (PFloat (FNum ((if neg then [45] else []) ++ ip ++ frac ++ exp)), r3)
        end
      else None
  end.

(** [NUMBER_RE.match] *)
Definition match_number (s : pystr) : option (pyval * pystr) :=
  match s with
  | c :: r => if c =? 45 then match_unsigned true r else match_unsigned false s
  | [] => None
  end.

Definition with_rest (v : pyval) (r : option pystr) : option (pyval * pystr) :=
  match r with
  | Some rest => Some (v, rest)
  | None => None
  end.

(** The constants and numbers of [scan_once], tried in its order. *)
Definition scan_atom (s : pystr) : option (pyval * pystr) :=
  match strip_prefix (str "null") s with
  | Some r => Some (PNone, r)
  | None =>
  match strip_prefix (str "true") s with
  | Some r => Some (PBool true, r)
  | None =>
  match strip_prefix (str "false") s with
  | Some r => Some (PBool false, r)
  | None =>
  match match_number s with
  | Some res => Some res
  | None =>
  match strip_prefix (str "NaN") s with
  | Some r => Some (PFloat FNaN, r)
  | None =>
  match strip_prefix (str "Infinity") s with
  | Some r => Some (PFloat (FInf false), r)
  | None => with_rest (PFloat (FInf true)) (strip_prefix (str "-Infinity") s)
  end end end end end end.

(** [scan_once], [JSONObject] and [JSONArray].  [fuel] bounds the number of
    calls, each reading at least one character; [depth] is the nesting of
    objects and arrays the recursion limit still allows, the scanner
    entering a recursive call at each opening brace or bracket.  A number
    that [int()] refuses ends the scan, as the exception does. *)
Fixpoint scan_once (fuel depth : nat) (s : pystr) : option (pyval * pystr) :=
  match fuel with
  | O => None
  | S fuel =>
      match s with
      | [] => None
      | c :: s' =>
          if c =? 34 then
            match scanstring s' with
            | Some (chars, r) => Some (PStr chars, r)
            | None => None
            end
          else if c =? 123 then
            match depth with
            | O => None
            | S depth =>
                match skip_ws s' with
                | c1 :: r =>
                    if c1 =? 125 then Some (PDict [], r)
                    else if c1 =? 34 then
                      match object_items fuel depth r with
                      | Some (pairs, r') => Some (PDict (dict_of_pairs pairs), r')
                      | None => None
                      end
                    else None
                | [] => None
                end
            end
          else if c =? 91 then
            match depth with
            | O => None
            | S depth =>
                match skip_ws s' with
                | c1 :: r =>
                    if c1 =? 93 then Some (PList [], r)
                    else
                      match array_items fuel depth (c1 :: r) with
                      | Some (values, r') => Some (PList values, r')
                      | None => None
                      end
                | [] => None
                end
            end
          else scan_atom s
      end
  end

(** The loop of [JSONObject], entered after the opening quote of a key. *)
with object_items (fuel depth : nat) (s : pystr)
  : option (list (pystr * pyval) * pystr) :=
  match fuel with
  | O => None
  | S fuel =>
      match scanstring s with
      | None => None
      | Some (key, s1) =>
          match skip_ws s1 with
          | c :: s2 =>
              if c =? 58 then
                match scan_once fuel depth (skip_ws s2) with
                | None => None
                | Some (value, s3) =>
                    match skip_ws s3 with
                    | c2 :: s4 =>
                        if c2 =? 125 then Some ([(key, value)], s4)
                        else if c2 =? 44 then
                          match skip_ws s4 with
                          | c3 :: s5 =>
                              if c3 =? 34 then
                                match object_items fuel depth s5 with
                                | Some (pairs, r) => Some ((key, value) :: pairs, r)
                                | None => None
                                end
                              else None
                          | [] => None
                          end
                        else None
                    | [] => None
                    end
                end
              else None
          | [] => None
          end
      end
  end

(** The loop of [JSONArray], entered at the first character of a value. *)
with array_items (fuel depth : nat) (s : pystr) : option (list pyval * pystr) :=
  match fuel with
  | O => None
  | S fuel =>
      match scan_once fuel depth s with
      | None => None
      | Some (value, s1) =>
          match skip_ws s1 with
          | c :: s2 =>
              if c =? 93 then Some ([value], s2)
              else if c =? 44 then
                match array_items fuel depth (skip_ws s2) with
                | Some (values, r) => Some (value :: values, r)
                | None => None
                end
              else None
          | [] => None
          end
      end
  end.

(** [json.loads(s)]: leading whitespace, one value, trailing whitespace and
    nothing more; [None] stands for the exception raised: [JSONDecodeError],
    [ValueError] for an int of too many digits, [RecursionError] for
    nesting deeper than [depth]. *)
Definition loads (depth : nat) (s : pystr) : option pyval :=
  match scan_once (S (length s)) depth (skip_ws s) with
  | Some (v, r) =>
      match skip_ws r with
      | [] => Some v
      | _ :: _ => None
      end
  | None => None
  end.

End Json.

(** ** Text encoding: [str.encode()] and [bytes.decode()] (UTF-8, strict) *)

Abbreviation bytes := (list N).

Module Utf8.

Definition is_surrogate (c : N) : bool := (55296 <=? c) && (c <=? 57343).

Definition encode_char (c : N) : option bytes :=
  if c <? 128 then Some [c]
  else if c <? 2048 then Some [192 + c / 64; 128 + c mod 64]
  else if c <? 65536 then
    if is_surrogate c then None
    else Some [224 + c / 4096; 128 + (c / 64) mod 64; 128 + c mod 64]
  else if c <? 1114112 then
    Some [240 + c / 262144; 128 + (c / 4096) mod 64; 128 + (c / 64) mod 64;
          128 + c mod 64]
  else None.

Fixpoint encode (s : pystr) : option bytes :=
  match s with
  | [] => Some []
  | c :: s' =>
      match encode_char c, encode s' with
      | Some b, Some bs => Some (b ++ bs)
      | _, _ => None
      end
  end.

Definition is_cont (b : N) : bool := (128 <=? b) && (b <=? 191).

Definition push (c : N) (r : option pystr) : option pystr :=
  match r with
  | Some s => Some (c :: s)
  | None => None
  end.

Fixpoint decode (bs : bytes) : option pystr :=
  match bs with
  | [] => Some []
  | b0 :: r0 =>
      if b0 <? 128 then push b0 (decode r0)
      else if (194 <=? b0) && (b0 <=? 223) then
        match r0 with
        | b1 :: r1 =>
            if is_cont b1 then push ((b0 - 192) * 64 + (b1 - 128)) (decode r1)
            else None
        | _ => None
        end
      else if (224 <=? b0) && (b0 <=? 239) then
        match r0 with
        | b1 :: b2 :: r2 =>
            let c := (b0 - 224) * 4096 + (b1 - 128) * 64 + (b2 - 128) in
            if is_cont b1 && is_cont b2 && (2048 <=? c) && negb (is_surrogate c)
            then push c (decode r2)
            else None
        | _ => None
        end
      else if (240 <=? b0) && (b0 <=? 244) then
        match r0 with
        | b1 :: b2 :: b3 :: r3 =>
            let c := (b0 - 240) * 262144 + (b1 - 128) * 4096
                     + (b2 - 128) * 64 + (b3 - 128) in
            if is_cont b1 && is_cont b2 && is_cont b3
               && (65536 <=? c) && (c <? 1114112)
            then push c (decode r3)
            else None
        | _ => None
        end
      else None
  end.

End Utf8.

(** ** What the codec properties are stated with *)

Module JsonSpec.
Import Json.

(** The text of an int. *)
Definition int_text (z : Z) : pystr :=
  match z with
  | Zneg p => 45 :: uint_chars (N.to_uint (Npos p))
  | _ => uint_chars (N.to_uint (Z.to_N z))
  end.

(** The text of a value: what [dumps] returns when it raises nothing. *)
Fixpoint text (v : pyval) : pystr :=
  match v with
  | PNone => str "null"
  | PBool true => str "true"
  | PBool false => str "false"
  | PInt z => int_text z
  | PFloat f => float_repr f
  | PStr s => encode_basestring_ascii s
  | PList l => 91 :: join (str ", ") (List.map text l) ++ [93]
  | PDict d =>
      123 :: join (str ", ")
               (List.map (λ kv, encode_basestring_ascii kv.1 ++ str ": " ++ text kv.2) d)
          ++ [125]
  end.

(** How deep lists and dicts are nested in a value: 0 for a value that is
    neither, 1 for a list or dict of such values, an empty one too. *)
Fixpoint nesting (v : pyval) : nat :=
  match v with
  | PList l => S (foldr (λ x n, Nat.max (nesting x) n) O l)
  | PDict d => S (foldr (λ kv n, Nat.max (nesting kv.2) n) O d)
  | _ => O
  end.

(** What can follow a value in the text [dumps] writes. *)
Definition delimiter (c : N) : bool := (c =? 44) || (c =? 93) || (c =? 125).

Definition delimited (rest : pystr) : Prop :=
  match rest with
  | [] => True
  | c :: _ => delimiter c = true
  end.

(** The code points of well-formed text: below 0x110000 and not a
    surrogate. *)
Definition scalar_value (c : N) : bool :=
  (c <? 1114112) && negb (Utf8.is_surrogate c).

Fixpoint N_range (len : nat) (start : N) : list N :=
  match len with
  | O => []
  | S len' => start :: N_range len' (N.succ start)
  end.

Definition hex4_reads_back (n : N) : bool :=
  match hex4 n with
  | [a; b; c; d] =>
      match decode_uXXXX a b c d with
      | Some m => m =? n
      | None => false
      end
  | _ => false
  end.

(** A float that [json] writes as a numeral: the text is one [NUMBER_RE]
    reads in full as a float.  NaN is left out, as it differs from itself. *)
Definition valid_float (f : pyfloat) : bool :=
  match f with
  | FNum lit =>
      match match_number lit with
      | Some (PFloat (FNum lit'), []) => bool_decide (lit' = lit)
      | _ => false
      end
  | FInf _ => true
  | FNaN => false
  end.

(** The values a message is made of: strings of well-formed text, ints of
    at most 4300 decimal digits, bools, None, floats other than NaN, lists,
    and dicts whose keys are distinct strings. *)
Fixpoint valid (v : pyval) : bool :=
  match v with
  | PNone | PBool _ => true
  | PInt z => (length (int_digits z) <=? max_str_digits)%nat
  | PFloat f => valid_float f
  | PStr s => forallb scalar_value s
  | PList l => forallb valid l
  | PDict d =>
      forallb (λ kv, forallb scalar_value kv.1 && valid kv.2) d
      && bool_decide (NoDup d.*1)
  end.

(** Text of the 7-bit range, which UTF-8 leaves as it is. *)
Definition ascii_text (s : pystr) : Prop := Forall (λ c, c < 128) s.

(** The first character of a value's text: not whitespace, not a closing
    bracket. *)
Definition value_start (c : N) : Prop :=
  is_ws c = false ∧ (c =? 93) = false ∧ (c =? 125) = false.

Definition sep : pystr := str ", ".

Definition item_text (kv : pystr * pyval) : pystr :=
  encode_basestring_ascii kv.1 ++ str ": " ++ text kv.2.

(** The property proved by induction on the value: its text, followed by a
    delimiter, is read back by any scan with more fuel than characters and
    depth for its nesting. *)
Definition reads_back (v : pyval) : Prop :=
  valid v = true →
  ∀ fuel depth rest,
    (length (text v) < fuel)%nat → (nesting v ≤ depth)%nat → delimited rest →
    scan_once fuel depth (text v ++ rest) = Some (v, rest).

(** The text of a dict's items after the opening quote of the first key. *)
Fixpoint items_body (d : list (pystr * pyval)) (rest : pystr) : pystr :=
  match d with
  | [] => []
  | kv :: d' =>
      flat_map escape_char kv.1 ++ 34 :: 58 :: 32 :: text kv.2
        ++ match d' with
           | [] => 125 :: rest
           | _ :: _ => 44 :: 32 :: 34 :: items_body d' rest
           end
  end.

End JsonSpec.

(** ** Truth values, dict keys, exceptions *)

(** [bool(v)].  A float is false when it is zero; the model reads this off
    the significand of the numeral (no digit other than 0), so a numeral too
    small for a float, which reads as 0.0, is not told apart. *)
Fixpoint significand_nonzero (lit : pystr) : bool :=
  match lit with
  | [] => false
  | c :: r =>
      if (c =? 101) || (c =? 69) then false
      else ((49 <=? c) && (c <=? 57)) || significand_nonzero r
  end.

Definition float_truthy (f : pyfloat) : bool :=
  match f with
  | FNum lit => significand_nonzero lit
  | FInf _ | FNaN => true
  end.

Definition truthy (v : pyval) : bool :=
  match v with
  | PNone => false
  | PBool b => b
  | PInt z => negb (z =? 0)%Z
  | PFloat f => float_truthy f
  | PStr s => match s with [] => false | _ => true end
  | PList l => match l with [] => false | _ => true end
  | PDict d => match d with [] => false | _ => true end
  end.

Inductive exn :=
| TimeoutError
| OSError (msg : pystr)
| TypeError (msg : pystr)
| AttributeError (msg : pystr)
| ValueError (msg : pystr)
| RuntimeError (msg : pystr).

(** [str(e)] *)
Definition exn_str (e : exn) : pystr :=
  match e with
  | TimeoutError => str "timed out"
  | OSError msg | TypeError msg | AttributeError msg | ValueError msg
  | RuntimeError msg => msg
  end.

Definition type_name (v : pyval) : pystr :=
  match v with
  | PNone => str "NoneType"
  | PBool _ => str "bool"
  | PInt _ => str "int"
  | PFloat _ => str "float"
  | PStr _ => str "str"
  | PList _ => str "list"
  | PDict _ => str "dict"
  end.

(** The keys of [discovered_drones] as the dict tells them apart: [True] and
    [False] are the integers 1 and 0. *)
Inductive dkey :=
| KNone
| KInt (z : Z)
| KStr (s : pystr).

#[global] Instance dkey_eq_dec : EqDecision dkey.
Proof. solve_decision. Defined.

#[global] Instance dkey_countable : Countable dkey.
Proof.
  refine (inj_countable'
            (λ k, match k with
                  | KNone => inl ()
                  | KInt z => inr (inl z)
                  | KStr s => inr (inr s)
                  end)
            (λ x, match x with
                  | inl _ => KNone
                  | inr (inl z) => KInt z
                  | inr (inr s) => KStr s
                  end) _).
  by intros [].
Defined.

(** What hashing a value for a dict lookup gives.  Lists and dicts raise
    [TypeError]; a float key is compared as a binary floating-point number,
    which the numerals do not determine, and is left outside the model. *)
Inductive key_class :=
| Hashable (k : dkey)
| Unhashable (e : exn)
| FloatKey.

Definition dict_key (v : pyval) : key_class :=
  match v with
  | PNone => Hashable KNone
  | PBool b => Hashable (KInt (if b then 1 else 0))
  | PInt z => Hashable (KInt z)
  | PFloat _ => FloatKey
  | PStr s => Hashable (KStr s)
  | PList _ => Unhashable (TypeError (str "unhashable type: 'list'"))
  | PDict _ => Unhashable (TypeError (str "unhashable type: 'dict'"))
  end.

(** ** The controller state *)

(** The address pair a datagram comes from. *)
Record sockaddr := { host : pystr; sport : Z }.

(** An entry of [discovered_drones].  [last_seen] is a [datetime], counted
    in microseconds. *)
Record DroneRecord := {
  id_ : pyval;
  name : pyval;
  address : pystr;
  port : pyval;
  status : pyval;
  battery_voltage : pyval;
  gps_fix : pyval;
  flight_mode : pyval;
  armed : pyval;
  signal_strength : pyval;
  last_seen : Z;
  firmware_version : pyval
}.

Record DroneController := {
  discovery_port : Z;
  discovered_drones : gmap dkey DroneRecord;
  server_socket : bool;
  running : bool;
  discovery_thread : bool
}.

(** [DroneController.__init__] *)
Definition init (discovery_port : Z) : DroneController :=
  {| discovery_port := discovery_port; discovered_drones := ∅;
     server_socket := false; running := false; discovery_thread := false |}.

Definition set_drones (c : DroneController) (d : gmap dkey DroneRecord)
  : DroneController :=
  {| discovery_port := discovery_port c; discovered_drones := d;
     server_socket := server_socket c; running := running c;
     discovery_thread := discovery_thread c |}.

(** ** Effects: the calls made on sockets and threads, and what the network
    answers *)

Inductive io_event :=
| IOSocket
| IOSetsockopt
| IOBind (port : Z)
| IOSettimeout
| IOSendto (data : bytes) (dest_host : pystr) (dest_port : pyval)
| IORecvfrom
| IOClose
| IOServerRecvfrom
| IOServerSendto (data : bytes) (dest : sockaddr)
| IOThreadStart.

(** What the outside world does during one call: the text of
    [datetime.utcnow().isoformat()], the result of each socket call and of
    starting the listener thread, the nesting of lists and dicts that the
    interpreter's recursion limit leaves to [json.dumps] and to
    [json.loads] where they are called, the exception [json.dumps] raises
    on a value it refuses ([ValueError] for an int past the digit limit,
    [RecursionError], a [RuntimeError], past the recursion limit), and the
    text of the exception the text codecs raise on data they reject. *)
Record env := {
  isoformat : pystr;
  socket_error : option exn;
  setsockopt_error : option exn;
  bind_error : option exn;
  thread_start_error : option exn;
  sendto_error : bytes → pystr → pyval → option exn;
  recvfrom_result : exn + bytes;
  server_sendto_error : bytes → sockaddr → option exn;
  encoder_depth : nat;
  decoder_depth : nat;
  dumps_error : pyval → exn;
  codec_error_text : bytes → pystr
}.

Record world := { ctl : DroneController; io : list io_event }.

Inductive outcome (A : Type) :=
| Return (a : A)
| Raise (e : exn)
| Unmodelled.
Arguments Return {A} a.
Arguments Raise {A} e.
Arguments Unmodelled {A}.

(** Computations that read and change the controller, make calls on
    sockets, and may raise. *)
Definition M (A : Type) : Type := world → outcome A * world.

Definition ret {A} (a : A) : M A := λ w, (Return a, w).
Definition raise {A} (e : exn) : M A := λ w, (Raise e, w).
Definition unmodelled {A} : M A := λ w, (Unmodelled, w).

Definition bind {A B} (m : M A) (k : A → M B) : M B :=
  λ w, match m w with
       | (Return a, w') => k a w'
       | (Raise e, w') => (Raise e, w')
       | (Unmodelled, w') => (Unmodelled, w')
       end.

(** [try: m  except Exception as e: h e] *)
Definition try_except {A} (m : M A) (h : exn → M A) : M A :=
  λ w, match m w with
       | (Raise e, w') => h e w'
       | r => r
       end.

#[global] Instance M_ret : MRet M := @ret.
#[global] Instance M_bind : MBind M := λ A B k m, bind m k.

Definition emit (e : io_event) : M unit :=
  λ w, (Return (), {| ctl := ctl w; io := io w ++ [e] |}).

(** A call that the network may fail. *)
Definition call (e : io_event) (err : option exn) : M unit :=
  emit e;;
  match err with
  | Some x => raise x
  | None => ret ()
  end.

Definition get_ctl : M DroneController := λ w, (Return (ctl w), w).
Definition put_ctl (c : DroneController) : M unit :=
  λ w, (Return (), {| ctl := c; io := io w |}).

Definition hash_key (v : pyval) : M dkey :=
  match dict_key v with
  | Hashable k => ret k
  | Unhashable e => raise e
  | FloatKey => unmodelled
  end.

(** [v.get(k, default)]; only a dict has the method. *)
Definition py_get (v : pyval) (k : pystr) (default : pyval) : M pyval :=
  match v with
  | PDict d => ret (dict_get d k default)
  | _ => raise (AttributeError
                  (str "'" ++ type_name v ++ str "' object has no attribute 'get'"))
  end.

(** ** The controller's operations *)

Module DroneController.

(** The result dicts built by [send_command_to_drone]. *)
Definition failure (msg : pystr) : pyval :=
  PDict [(str "success", PBool false); (str "error", PStr msg)].

Definition success_default : pyval := PDict [(str "success", PBool true)].

(** [_handle_drone_announcement(message, addr)], run at time [now]. *)
Definition _handle_drone_announcement
    (now : Z) (message : list (pystr * pyval)) (addr : sockaddr) : M unit :=
  let drone_id := dict_get message (str "drone_id") PNone in
  if truthy drone_id then
    k ← hash_key drone_id;
    c ← get_ctl;
    put_ctl (set_drones c
      (<[k := {| id_ := drone_id;
                 name := dict_get message (str "name") drone_id;
                 address := host addr;
                 port := dict_get message (str "port") (PInt 14550);
                 status := dict_get message (str "pixhawk_status") (PStr (str "unknown"));
                 battery_voltage := dict_get message (str "battery_voltage") (PInt 0);
                 gps_fix := dict_get message (str "gps_fix") (PBool false);
                 flight_mode := dict_get message (str "flight_mode") (PStr (str "unknown"));
                 armed := dict_get message (str "armed") (PBool false);
                 signal_strength := dict_get message (str "signal_strength") (PInt 0);
                 last_seen := now;
                 firmware_version :=
                   dict_get message (str "firmware_version") (PStr (str "unknown")) |}]>
         (discovered_drones c)))
  else ret ().

(** [json.dumps(msg).encode()] *)
Definition encode_message (e : env) (msg : pyval) : M bytes :=
  match Json.dumps (encoder_depth e) msg with
  | None => raise (dumps_error e msg)
  | Some text =>
      match Utf8.encode text with
      | Some data => ret data
      | None => raise (ValueError (codec_error_text e text))
      end
  end.

(** [json.loads(data.decode())] *)
Definition decode_message (e : env) (data : bytes) : M pyval :=
  match Utf8.decode data with
  | None => raise (ValueError (codec_error_text e data))
  | Some text =>
      match Json.loads (decoder_depth e) text with
      | Some v => ret v
      | None => raise (ValueError (codec_error_text e data))
      end
  end.

(** The [command_msg] dict of [send_command_to_drone]. *)
Definition command_message (e : env) (drone_id command params : pyval) : pyval :=
  PDict [(str "type", PStr (str "command"));
         (str "command", command);
         (str "target_drone", drone_id);
         (str "params", if truthy params then params else PDict []);
         (str "timestamp", PStr (isoformat e))].

(** [send_command_to_drone(drone_id, command, params)] *)
Definition send_command_to_drone
    (e : env) (drone_id command params : pyval) : M pyval :=
  k ← hash_key drone_id;
  c ← get_ctl;
  match discovered_drones c !! k with
  | None => ret (failure (str "Drone not found"))
  | Some drone_info =>
      try_except
        (let command_msg := command_message e drone_id command params in
         call IOSocket (socket_error e);;
         emit IOSettimeout;;
         data ← encode_message e command_msg;
         call (IOSendto data (address drone_info) (port drone_info))
              (sendto_error e data (address drone_info) (port drone_info));;
         emit IORecvfrom;;
         response_data ← match recvfrom_result e with
                         | inl x => raise x
                         | inr d => ret d
                         end;
         response ← decode_message e response_data;
         emit IOClose;;
         py_get response (str "result") success_default)
        (λ x, ret (failure (exn_str x)))
  end.

(** [get_discovered_drones()], run at time [now]: the ids whose record has
    [(current_time - last_seen).total_seconds() > 30] are collected and
    deleted, and a copy of the dict is returned.  A [timedelta] counts whole
    microseconds, so its [total_seconds()] exceeds 30 exactly when it counts
    more than 30 000 000 of them. *)
Definition expired (now : Z) (info : DroneRecord) : bool :=
  (30000000 <? now - last_seen info)%Z.

Definition expired_drones (now : Z) (drones : gmap dkey DroneRecord) : list dkey :=
  (filter (λ kv, expired now kv.2 = true) (map_to_list drones)).*1.

Definition get_discovered_drones (now : Z) : M (gmap dkey DroneRecord) :=
  c ← get_ctl;
  let drones := foldr delete (discovered_drones c) (expired_drones now (discovered_drones c)) in
  put_ctl (set_drones c drones);;
  ret drones.

(** The command handlers; [_handle_takeoff_command] and
    [_handle_goto_command] read their parameters for the log line first. *)
Definition _handle_arm_command (e : env) (drone_id params : pyval) : M pyval :=
  send_command_to_drone e drone_id (PStr (str "arm")) params.

Definition _handle_disarm_command (e : env) (drone_id params : pyval) : M pyval :=
  send_command_to_drone e drone_id (PStr (str "disarm")) params.

Definition _handle_takeoff_command (e : env) (drone_id params : pyval) : M pyval :=
  py_get params (str "altitude") (PFloat (FNum (str "10.0")));;
  send_command_to_drone e drone_id (PStr (str "takeoff")) params.

Definition _handle_land_command (e : env) (drone_id params : pyval) : M pyval :=
  send_command_to_drone e drone_id (PStr (str "land")) params.

Definition _handle_rtl_command (e : env) (drone_id params : pyval) : M pyval :=
  send_command_to_drone e drone_id (PStr (str "return_to_launch")) params.

Definition _handle_goto_command (e : env) (drone_id params : pyval) : M pyval :=
  py_get params (str "latitude") PNone;;
  py_get params (str "longitude") PNone;;
  py_get params (str "altitude") (PFloat (FNum (str "50.0")));;
  send_command_to_drone e drone_id (PStr (str "goto_location")) params.

Definition _handle_telemetry_request (e : env) (drone_id params : pyval) : M pyval :=
  send_command_to_drone e drone_id (PStr (str "get_telemetry")) params.

(** The table built by [_setup_command_handlers]. *)
Definition command_handlers
  : list (pystr * (env → pyval → pyval → M pyval)) :=
  [(str "arm", _handle_arm_command);
   (str "disarm", _handle_disarm_command);
   (str "takeoff", _handle_takeoff_command);
   (str "land", _handle_land_command);
   (str "return_to_launch", _handle_rtl_command);
   (str "goto_location", _handle_goto_command);
   (str "get_telemetry", _handle_telemetry_request)].

Fixpoint lookup_handler {H : Type} (table : list (pystr * H)) (k : pystr) : option H :=
  match table with
  | [] => None
  | (k', h) :: table' => if decide (k' = k) then Some h else lookup_handler table' k
  end.

(** [command in self.command_handlers] and [self.command_handlers[command]]:
    the keys are strings, which only a string equals; a list or a dict
    cannot be hashed. *)
Definition find_handler (command : pyval)
  : M (option (env → pyval → pyval → M pyval)) :=
  match command with
  | PStr s => ret (lookup_handler command_handlers s)
  | PFloat _ => ret None
  | _ => hash_key command;; ret None
  end.

(** [_handle_drone_command(message, addr)]; [e] is the world during the
    handler's call to the drone and [e'] the world when the response is
    sent back. *)
Definition _handle_drone_command
    (e e' : env) (message : list (pystr * pyval)) (addr : sockaddr) : M unit :=
  let command := dict_get message (str "command") PNone in
  let drone_id := dict_get message (str "target_drone") PNone in
  h ← find_handler command;
  match h with
  | Some handler =>
      result ← handler e drone_id (dict_get message (str "params") (PDict []));
      let response :=
        PDict [(str "type", PStr (str "command_response"));
               (str "drone_id", drone_id);
               (str "command", command);
               (str "result", result);
               (str "timestamp", PStr (isoformat e'))] in
      try_except
        (data ← encode_message e' response;
         call (IOServerSendto data addr) (server_sendto_error e' data addr))
        (λ _, ret ())
  | None => ret ()
  end.

(** One turn of the loop of [_discovery_listener], [received] being what
    [recvfrom(1024)] gives and [now] the time of the turn.  A timeout goes
    on to the next turn at once, any other exception after the log line and
    a second of sleep. *)
Definition _discovery_listener_turn
    (e e' : env) (now : Z) (received : exn + bytes * sockaddr) : M unit :=
  try_except
    (emit IOServerRecvfrom;;
     datagram ← match received with
                | inl x => raise x
                | inr p => ret p
                end;
     message ← decode_message e datagram.1;
     type ← py_get message (str "type") PNone;
     match message, type with
     | PDict fields, PStr s =>
         if decide (s = str "drone_announce")
         then _handle_drone_announcement now fields datagram.2
         else if decide (s = str "command")
              then _handle_drone_command e e' fields datagram.2
              else ret ()
     | _, _ => ret ()
     end)
    (λ _, ret ()).

(** [start_server()]: the socket is kept in [server_socket] once created,
    the running flag is set once the socket is bound, and the thread is
    kept in [discovery_thread] before it is started; every step is inside
    the [try]. *)
Definition start_server (e : env) : M bool :=
  try_except
    (call IOSocket (socket_error e);;
     c ← get_ctl;
     put_ctl {| discovery_port := discovery_port c;
                discovered_drones := discovered_drones c;
                server_socket := true; running := running c;
                discovery_thread := discovery_thread c |};;
     call IOSetsockopt (setsockopt_error e);;
     call (IOBind (discovery_port c)) (bind_error e);;
     c ← get_ctl;
     put_ctl {| discovery_port := discovery_port c;
                discovered_drones := discovered_drones c;
                server_socket := server_socket c; running := true;
                discovery_thread := discovery_thread c |};;
     c ← get_ctl;
     put_ctl {| discovery_port := discovery_port c;
                discovered_drones := discovered_drones c;
                server_socket := server_socket c; running := running c;
                discovery_thread := true |};;
     call IOThreadStart (thread_start_error e);;
     ret true)
    (λ _, ret false).

(** [stop_server()]; [close()] is called on the listening socket, which
    stays in [server_socket], and [close_error] is what the call raises. *)
Definition stop_server (close_error : option exn) : M unit :=
  c ← get_ctl;
  put_ctl {| discovery_port := discovery_port c;
             discovered_drones := discovered_drones c;
             server_socket := server_socket c; running := false;
             discovery_thread := discovery_thread c |};;
  if server_socket c then call IOClose close_error else ret ().

(** What the listener meets in one turn of its loop. *)
Record turn := {
  turn_env : env;
  turn_env' : env;
  turn_now : Z;
  turn_received : exn + bytes * sockaddr
}.

(** [_discovery_listener()], over the turns the loop gets to make: each
    starts with the test of [self.running]. *)
Fixpoint _discovery_listener (turns : list turn) : M unit :=
  match turns with
  | [] => ret ()
  | t :: turns' =>
      c ← get_ctl;
      if running c then
        _discovery_listener_turn (turn_env t) (turn_env' t) (turn_now t)
          (turn_received t);;
        _discovery_listener turns'
      else ret ()
  end.

(** [get_drone_telemetry(drone_id)] and the other calls of the facade;
    [params] is [None] where the call passes none, and an altitude left out
    takes the default of the signature. *)
Definition get_drone_telemetry (e : env) (drone_id : pyval) : M pyval :=
  send_command_to_drone e drone_id (PStr (str "get_telemetry")) PNone.

Definition arm_drone (e : env) (drone_id : pyval) : M pyval :=
  send_command_to_drone e drone_id (PStr (str "arm")) PNone.

Definition disarm_drone (e : env) (drone_id : pyval) : M pyval :=
  send_command_to_drone e drone_id (PStr (str "disarm")) PNone.

Definition takeoff_drone (e : env) (drone_id : pyval) (altitude : option pyval)
  : M pyval :=
  send_command_to_drone e drone_id (PStr (str "takeoff"))
    (PDict [(str "altitude", default (PFloat (FNum (str "10.0"))) altitude)]).

Definition land_drone (e : env) (drone_id : pyval) : M pyval :=
  send_command_to_drone e drone_id (PStr (str "land")) PNone.

Definition return_to_launch (e : env) (drone_id : pyval) : M pyval :=
  send_command_to_drone e drone_id (PStr (str "return_to_launch")) PNone.

Definition goto_location
    (e : env) (drone_id latitude longitude : pyval) (altitude : option pyval)
  : M pyval :=
  send_command_to_drone e drone_id (PStr (str "goto_location"))
    (PDict [(str "latitude", latitude);
            (str "longitude", longitude);
            (str "altitude", default (PFloat (FNum (str "50.0"))) altitude)]).

(** [d['status'] == 'connected'] *)
Definition is_connected (info : DroneRecord) : bool :=
  match status info with
  | PStr s => bool_decide (s = str "connected")
  | _ => false
  end.

(** [get_system_status()] *)
Definition get_system_status (e : env) : M pyval :=
  c ← get_ctl;
  let active_drones := size (discovered_drones c) in
  let connected_drones :=
    length (filter (λ d, is_connected d = true) (map_to_list (discovered_drones c)).*2) in
  ret (PDict [(str "server_running", PBool (running c));
              (str "discovery_port", PInt (discovery_port c));
              (str "active_drones", PInt (Z.of_nat active_drones));
              (str "connected_drones", PInt (Z.of_nat connected_drones));
              (str "last_update", PStr (isoformat e))]).

End DroneController.

Import DroneController.

(** ** What the properties are stated with *)

(** The bytes of [json.dumps(msg).encode()], when it returns. *)
Definition message_bytes (e : env) (msg : pyval) : option bytes :=
  match Json.dumps (encoder_depth e) msg with
  | Some text => Utf8.encode text
  | None => None
  end.

(** The record an announcement stores: the payload's fields with their
    defaults, the sender's host, and the time of processing. *)
Definition announced_record
    (now : Z) (message : list (pystr * pyval)) (addr : sockaddr) : DroneRecord :=
  let drone_id := dict_get message (str "drone_id") PNone in
  {| id_ := drone_id;
     name := dict_get message (str "name") drone_id;
     address := host addr;
     port := dict_get message (str "port") (PInt 14550);
     status := dict_get message (str "pixhawk_status") (PStr (str "unknown"));
     battery_voltage := dict_get message (str "battery_voltage") (PInt 0);
     gps_fix := dict_get message (str "gps_fix") (PBool false);
     flight_mode := dict_get message (str "flight_mode") (PStr (str "unknown"));
     armed := dict_get message (str "armed") (PBool false);
     signal_strength := dict_get message (str "signal_strength") (PInt 0);
     last_seen := now;
     firmware_version :=
       dict_get message (str "firmware_version") (PStr (str "unknown")) |}.

(** Every record sits under the key of its own identifier. *)
Definition registry_wf (drones : gmap dkey DroneRecord) : Prop :=
  ∀ k r, drones !! k = Some r → dict_key (id_ r) = Hashable k.

(** Sample data for the scenarios. *)
Definition sample_addr : sockaddr := {| host := str "10.0.0.7"; sport := 50000 |}.
Definition sample_addr' : sockaddr := {| host := str "10.0.0.9"; sport := 50001 |}.
Definition empty_world : world := {| ctl := init 8888; io := [] |}.

Definition announce_1 : list (pystr * pyval) :=
  [(str "type", PStr (str "drone_announce"));
   (str "drone_id", PStr (str "drone-1"));
   (str "battery_voltage", PFloat (FNum (str "12.4")));
   (str "address", PStr (str "192.168.1.66"))].

Definition announce_1' : list (pystr * pyval) :=
  [(str "type", PStr (str "drone_announce"));
   (str "drone_id", PStr (str "drone-1"))].

(** A stored field is the payload's value when the payload has the key and
    the default otherwise. *)
Definition field_is
    (message : list (pystr * pyval)) (key : pystr) (default actual : pyval) : Prop :=
  match dict_lookup message key with
  | Some v => actual = v
  | None => actual = default
  end.

Definition world_1 : world :=
  {| ctl := set_drones (init 8888)
              {[ KStr (str "drone-1") := announced_record 1000 announce_1 sample_addr ]};
     io := [] |}.

(** A network on which no reply comes back. *)
Definition silent_env : env :=
  {| isoformat := str "2024-01-01T00:00:00";
     socket_error := None; setsockopt_error := None; bind_error := None;
     thread_start_error := None;
     sendto_error := λ _ _ _, None; recvfrom_result := inl TimeoutError;
     server_sendto_error := λ _ _, None;
     encoder_depth := 900; decoder_depth := 900;
     dumps_error := λ _, ValueError (str "invalid value");
     codec_error_text := λ _, str "invalid data" |}.

(** A host on which the discovery port is taken. *)
Definition port_taken_env : env :=
  {| isoformat := str "2024-01-01T00:00:00";
     socket_error := None; setsockopt_error := None;
     bind_error := Some (OSError (str "[Errno 98] Address already in use"));
     thread_start_error := None;
     sendto_error := λ _ _ _, None; recvfrom_result := inl TimeoutError;
     server_sendto_error := λ _ _, None;
     encoder_depth := 900; decoder_depth := 900;
     dumps_error := λ _, ValueError (str "invalid value");
     codec_error_text := λ _, str "invalid data" |}.

(** A host on which no more threads can be started. *)
Definition no_thread_env : env :=
  {| isoformat := str "2024-01-01T00:00:00";
     socket_error := None; setsockopt_error := None; bind_error := None;
     thread_start_error := Some (RuntimeError (str "can't start new thread"));
     sendto_error := λ _ _ _, None; recvfrom_result := inl TimeoutError;
     server_sendto_error := λ _ _, None;
     encoder_depth := 900; decoder_depth := 900;
     dumps_error := λ _, ValueError (str "invalid value");
     codec_error_text := λ _, str "invalid data" |}.

(** The seven names of [command_handlers]. *)
Definition supported_commands : list pystr :=
  [str "arm"; str "disarm"; str "takeoff"; str "land"; str "return_to_launch";
   str "goto_location"; str "get_telemetry"].

Definition hover_message : list (pystr * pyval) :=
  [(str "type", PStr (str "command")); (str "command", PStr (str "hover"));
   (str "target_drone", PStr (str "drone-1")); (str "params", PDict [])].

(** What reaches the registry, in order: an announcement handed to its
    handler by the listener, which catches what the handler raises, or a
    caller asking for the snapshot. *)
Inductive request :=
| Announce (now : Z) (message : list (pystr * pyval)) (addr : sockaddr)
| Snapshot (now : Z).

Definition serve (r : request) : M unit :=
  match r with
  | Announce now message addr =>
      try_except (_handle_drone_announcement now message addr) (λ _, ret ())
  | Snapshot now => get_discovered_drones now;; ret ()
  end.

Fixpoint serve_all (rs : list request) : M unit :=
  match rs with
  | [] => ret ()
  | r :: rs' => serve r;; serve_all rs'
  end.

(** The key an announcement is stored under, when it is stored. *)
Definition announced_key (message : list (pystr * pyval)) : option dkey :=
  let drone_id := dict_get message (str "drone_id") PNone in
  if truthy drone_id then
    match dict_key drone_id with
    | Hashable k => Some k
    | _ => None
    end
  else None.

Definition announces (k : dkey) (r : request) : Prop :=
  match r with
  | Announce _ message _ => announced_key message = Some k
  | Snapshot _ => False
  end.

(** Announcements whose identifier is a float are outside the model. *)
Definition modelled (r : request) : Prop :=
  match r with
  | Announce _ message _ =>
      truthy (dict_get message (str "drone_id") PNone) = true →
      dict_key (dict_get message (str "drone_id") PNone) ≠ FloatKey
  | Snapshot _ => True
  end.

Definition world_seen : world :=
  (serve (Announce 0 announce_1 sample_addr) empty_world).2.

Definition takeoff_message : pyval :=
  command_message silent_env (PStr (str "drone-1")) (PStr (str "takeoff"))
    (PDict [(str "altitude", PFloat (FNum (str "15.0")))]).

Definition quoted (s : string) : pystr := 34 :: str s ++ [34].

(** ** What the further properties are stated with *)

(** The world after more socket calls. *)
Definition add_io (w : world) (events : list io_event) : world :=
  {| ctl := ctl w; io := io w ++ events |}.

(** The [response] dict of [_handle_drone_command]. *)
Definition response_message (e' : env) (drone_id command result : pyval) : pyval :=
  PDict [(str "type", PStr (str "command_response"));
         (str "drone_id", drone_id);
         (str "command", command);
         (str "result", result);
         (str "timestamp", PStr (isoformat e'))].

(** The dict a datagram decodes to, when it decodes to one, in a listener
    whose recursion limit leaves [depth] to the decoder. *)
Definition datagram_fields (depth : nat) (received : exn + bytes * sockaddr)
  : option (list (pystr * pyval)) :=
  match received with
  | inl _ => None
  | inr (data, _) =>
      match Utf8.decode data with
      | Some text =>
          match Json.loads depth text with
          | Some (PDict fields) => Some fields
          | _ => None
          end
      | None => None
      end
  end.

(** Every record sits under the key of its own identifier, and the
    identifier is a true value. *)
Definition registry_ok (drones : gmap dkey DroneRecord) : Prop :=
  ∀ k r, drones !! k = Some r →
         dict_key (id_ r) = Hashable k ∧ truthy (id_ r) = true.

(** What can be asked of a controller: a turn of the listener, and the
    calls of the public interface. *)
Inductive operation :=
| OpTurn (t : turn)
| OpSnapshot (now : Z)
| OpSend (e : env) (drone_id command params : pyval)
| OpStatus (e : env)
| OpStart (e : env)
| OpStop (close_error : option exn).

Definition perform (o : operation) : M unit :=
  match o with
  | OpTurn t =>
      _discovery_listener_turn (turn_env t) (turn_env' t) (turn_now t)
        (turn_received t)
  | OpSnapshot now => get_discovered_drones now;; ret ()
  | OpSend e drone_id command params =>
      send_command_to_drone e drone_id command params;; ret ()
  | OpStatus e => get_system_status e;; ret ()
  | OpStart e => start_server e;; ret ()
  | OpStop close_error => stop_server close_error
  end.

(** The controller after a sequence of operations; an exception goes to
    the caller of the operation and the controller lives on. *)
Fixpoint perform_all (ops : list operation) (w : world) : world :=
  match ops with
  | [] => w
  | o :: ops' => perform_all ops' (perform o w).2
  end.

(** Operations that stay inside the model: no identifier hashed is a
    float. *)
Definition float_free (o : operation) : Prop :=
  ∀ w, (perform o w).1 ≠ Unmodelled.

(** A turn of the listener that brings an announcement stored under [k]. *)
Definition turn_announces (k : dkey) (o : operation) : Prop :=
  match o with
  | OpTurn t =>
      ∃ fields, datagram_fields (decoder_depth (turn_env t)) (turn_received t)
                = Some fields
                ∧ dict_get fields (str "type") PNone = PStr (str "drone_announce")
                ∧ announced_key fields = Some k
  | _ => False
  end.

(** The calls of the facade. *)
Inductive facade_call :=
| Telemetry
| Arm
| Disarm
| Takeoff (altitude : option pyval)
| Land
| ReturnToLaunch
| Goto (latitude longitude : pyval) (altitude : option pyval).

Definition facade (e : env) (drone_id : pyval) (c : facade_call) : M pyval :=
  match c with
  | Telemetry => get_drone_telemetry e drone_id
  | Arm => arm_drone e drone_id
  | Disarm => disarm_drone e drone_id
  | Takeoff altitude => takeoff_drone e drone_id altitude
  | Land => land_drone e drone_id
  | ReturnToLaunch => return_to_launch e drone_id
  | Goto latitude longitude altitude =>
      goto_location e drone_id latitude longitude altitude
  end.

(** The name a facade call puts on the wire. *)
Definition call_name (c : facade_call) : pystr :=
  match c with
  | Telemetry => str "get_telemetry"
  | Arm => str "arm"
  | Disarm => str "disarm"
  | Takeoff _ => str "takeoff"
  | Land => str "land"
  | ReturnToLaunch => str "return_to_launch"
  | Goto _ _ _ => str "goto_location"
  end.

(** What the exchange with a registered drone gives: the value returned and
    the socket calls made, by the first step that fails. *)
Definition exchange (e : env) (info : DroneRecord) (msg : pyval)
  : pyval * list io_event :=
  match socket_error e with
  | Some x => (failure (exn_str x), [IOSocket])
  | None =>
  match Json.dumps (encoder_depth e) msg with
  | None => (failure (exn_str (dumps_error e msg)), [IOSocket; IOSettimeout])
  | Some text =>
  match Utf8.encode text with
  | None => (failure (codec_error_text e text), [IOSocket; IOSettimeout])
  | Some data =>
  let sent := [IOSocket; IOSettimeout; IOSendto data (address info) (port info)] in
  match sendto_error e data (address info) (port info) with
  | Some x => (failure (exn_str x), sent)
  | None =>
  match recvfrom_result e with
  | inl x => (failure (exn_str x), sent ++ [IORecvfrom])
  | inr reply =>
  match Utf8.decode reply with
  | None => (failure (codec_error_text e reply), sent ++ [IORecvfrom])
  | Some reply_text =>
  match Json.loads (decoder_depth e) reply_text with
  | None => (failure (codec_error_text e reply), sent ++ [IORecvfrom])
  | Some (PDict response) =>
      (dict_get response (str "result") success_default,
       sent ++ [IORecvfrom; IOClose])
  | Some v =>
      (failure (str "'" ++ type_name v ++ str "' object has no attribute 'get'"),
       sent ++ [IORecvfrom; IOClose])
  end end end end end end end.

(** More sample data. *)
Definition takeoff_null_message : list (pystr * pyval) :=
  [(str "type", PStr (str "command")); (str "command", PStr (str "takeoff"));
   (str "target_drone", PStr (str "drone-1")); (str "params", PNone)].

Definition arm_missing_message : list (pystr * pyval) :=
  [(str "type", PStr (str "command")); (str "command", PStr (str "arm"));
   (str "target_drone", PStr (str "missing-id"))].

Definition ping_message : pyval :=
  PDict [(str "type", PStr (str "ping")); (str "drone_id", PStr (str "drone-1"))].

Definition announce_turn : turn :=
  {| turn_env := silent_env; turn_env' := silent_env; turn_now := 1000;
     turn_received := inr (JsonSpec.text (PDict announce_1), sample_addr) |}.

Definition sample_operations : list operation :=
  [OpStart silent_env; OpTurn announce_turn; OpStatus silent_env; OpSnapshot 2000;
   OpStop None].

(** The parameters a facade call builds. *)
Definition call_params (c : facade_call) : list (pystr * pyval) :=
  match c with
  | Takeoff altitude =>
      [(str "altitude", default (PFloat (FNum (str "10.0"))) altitude)]
  | Goto latitude longitude altitude =>
      [(str "latitude", latitude); (str "longitude", longitude);
       (str "altitude", default (PFloat (FNum (str "50.0"))) altitude)]
  | _ => []
  end.

(** The controller once started, on a network without failures. *)
Definition started_world : world := (start_server silent_env empty_world).2.



(** * Properties of the controller *)

Ltac run_m :=
  repeat progress
    (unfold mbind, mret, M_bind, M_ret, bind, ret, raise, unmodelled, try_except,
       emit, call, get_ctl, put_ctl, hash_key in *;
     cbn [fst snd ctl io set_drones discovered_drones running server_socket
          discovery_thread discovery_port] in *).

Lemma announcement_falsy now message addr w :
  truthy (dict_get message (str "drone_id") PNone) = false →
  _handle_drone_announcement now message addr w = (Return (), w).
Proof.
  intros Hf. unfold _handle_drone_announcement. by rewrite Hf.
Qed.

Lemma announcement_accepted now message addr w k :
  truthy (dict_get message (str "drone_id") PNone) = true →
  dict_key (dict_get message (str "drone_id") PNone) = Hashable k →
  _handle_drone_announcement now message addr w =
    (Return (),
     {| ctl := set_drones (ctl w)
                 (<[k := announced_record now message addr]> (discovered_drones (ctl w)));
        io := io w |}).
Proof.
  intros Ht Hk. unfold _handle_drone_announcement. rewrite Ht.
  unfold hash_key. rewrite Hk. reflexivity.
Qed.

Lemma announcement_unhashable now message addr w x :
  truthy (dict_get message (str "drone_id") PNone) = true →
  dict_key (dict_get message (str "drone_id") PNone) = Unhashable x →
  _handle_drone_announcement now message addr w = (Raise x, w).
Proof.
  intros Ht Hk. unfold _handle_drone_announcement. rewrite Ht.
  unfold hash_key. rewrite Hk. reflexivity.
Qed.

Lemma registry_wf_empty : registry_wf ∅.
Proof. intros k r. by rewrite lookup_empty. Qed.

Lemma registry_wf_insert drones k r :
  registry_wf drones → dict_key (id_ r) = Hashable k →
  registry_wf (<[k := r]> drones).
Proof.
  intros Hwf Hk k' r'. rewrite lookup_insert. case_decide.
  - intros [= <-]. by subst.
  - apply Hwf.
Qed.

Lemma registry_wf_announcement now message addr w :
  registry_wf (discovered_drones (ctl w)) →
  registry_wf (discovered_drones (ctl (_handle_drone_announcement now message addr w).2)).
Proof.
  intros Hwf.
  destruct (truthy (dict_get message (str "drone_id") PNone)) eqn:Ht.
  - destruct (dict_key (dict_get message (str "drone_id") PNone)) as [k|x|] eqn:Hk.
    + rewrite (announcement_accepted _ _ _ _ k) by done. simpl.
      by apply registry_wf_insert.
    + by rewrite (announcement_unhashable _ _ _ _ x).
    + unfold _handle_drone_announcement, hash_key. rewrite Ht.
      run_m. by rewrite Hk.
  - by rewrite announcement_falsy.
Qed.

(** C10.  An announcement whose [drone_id] is absent, null or the empty
    string changes nothing: the handler returns with the registry, and the
    whole controller state, as it found them. *)
Theorem announcement_without_id_is_ignored now message addr w :
  dict_lookup message (str "drone_id") = None
  ∨ dict_lookup message (str "drone_id") = Some PNone
  ∨ dict_lookup message (str "drone_id") = Some (PStr []) →
  _handle_drone_announcement now message addr w = (Return (), w).
Proof.
  intros H. apply announcement_falsy. unfold dict_get.
  destruct H as [-> | [-> | ->]]; reflexivity.
Qed.

Lemma announcement_without_id_is_ignored_witness :
  (dict_lookup [(str "type", PStr (str "drone_announce")); (str "drone_id", PStr [])]
     (str "drone_id") = None
   ∨ dict_lookup [(str "type", PStr (str "drone_announce")); (str "drone_id", PStr [])]
       (str "drone_id") = Some PNone
   ∨ dict_lookup [(str "type", PStr (str "drone_announce")); (str "drone_id", PStr [])]
       (str "drone_id") = Some (PStr []))
  ∧ _handle_drone_announcement 1000
      [(str "type", PStr (str "drone_announce")); (str "drone_id", PStr [])]
      sample_addr empty_world = (Return (), empty_world).
Proof.
  split.
  - right; right; reflexivity.
  - apply announcement_without_id_is_ignored. right; right; reflexivity.
Defined.

(** C6.  The address an announcement stores is the host the datagram came
    from; no field of the payload enters it, so two payloads of any content
    arriving from one source leave the same address. *)
Theorem announcement_address_is_socket_source
    now message now' message' addr w w' k k' :
  truthy (dict_get message (str "drone_id") PNone) = true →
  dict_key (dict_get message (str "drone_id") PNone) = Hashable k →
  truthy (dict_get message' (str "drone_id") PNone) = true →
  dict_key (dict_get message' (str "drone_id") PNone) = Hashable k' →
  address <$>
    discovered_drones (ctl (_handle_drone_announcement now message addr w).2) !! k
    = Some (host addr)
  ∧ address <$>
      discovered_drones (ctl (_handle_drone_announcement now' message' addr w').2) !! k'
    = address <$>
      discovered_drones (ctl (_handle_drone_announcement now message addr w).2) !! k.
Proof.
  intros Ht Hk Ht' Hk'.
  rewrite (announcement_accepted _ _ _ _ k) by done.
  rewrite (announcement_accepted _ _ _ _ k') by done.
  simpl. by rewrite !lookup_insert_eq.
Qed.

Lemma announcement_address_is_socket_source_witness :
  address <$>
    discovered_drones
      (ctl (_handle_drone_announcement 1000 announce_1 sample_addr empty_world).2)
      !! KStr (str "drone-1")
  = Some (str "10.0.0.7").
Proof.
  apply (announcement_address_is_socket_source
           1000 announce_1 2000 announce_1' sample_addr empty_world empty_world
           (KStr (str "drone-1")) (KStr (str "drone-1"))); reflexivity.
Defined.

(** C4.  Two announcements for one identifier, whatever their senders,
    leave exactly one record for it, holding the second sender's address:
    the record is found under the identifier's key, and no record under
    another key carries this identifier. *)
Theorem two_announcements_last_write_wins t1 t2 m1 m2 a1 a2 w k :
  truthy (dict_get m1 (str "drone_id") PNone) = true →
  dict_key (dict_get m1 (str "drone_id") PNone) = Hashable k →
  truthy (dict_get m2 (str "drone_id") PNone) = true →
  dict_key (dict_get m2 (str "drone_id") PNone) = Hashable k →
  registry_wf (discovered_drones (ctl w)) →
  let w1 := (_handle_drone_announcement t1 m1 a1 w).2 in
  let w2 := (_handle_drone_announcement t2 m2 a2 w1).2 in
  (∃ r, discovered_drones (ctl w2) !! k = Some r ∧ address r = host a2)
  ∧ (∀ k' r', discovered_drones (ctl w2) !! k' = Some r' →
              dict_key (id_ r') = Hashable k → k' = k).
Proof.
  intros Ht1 Hk1 Ht2 Hk2 Hwf w1 w2.
  assert (Hwf2 : registry_wf (discovered_drones (ctl w2))).
  { subst w2 w1. by do 2 apply registry_wf_announcement. }
  split.
  - subst w2. rewrite (announcement_accepted _ _ _ _ k) by done. simpl.
    rewrite lookup_insert_eq. eauto.
  - intros k' r' Hl Hid. apply Hwf2 in Hl. congruence.
Qed.

Lemma two_announcements_last_write_wins_witness :
  ∃ r, discovered_drones
         (ctl (_handle_drone_announcement 2000 announce_1' sample_addr'
                 (_handle_drone_announcement 1000 announce_1 sample_addr empty_world).2).2)
         !! KStr (str "drone-1") = Some r
       ∧ address r = str "10.0.0.9".
Proof.
  apply (two_announcements_last_write_wins
           1000 2000 announce_1 announce_1' sample_addr sample_addr' empty_world
           (KStr (str "drone-1"))); try reflexivity.
  apply registry_wf_empty.
Defined.

(** C8, as stated, fails: an announcement that carries no battery voltage
    does not keep the voltage of the record it replaces. *)
Lemma partial_announcement_resets_fields :
  battery_voltage <$> discovered_drones (ctl world_1) !! KStr (str "drone-1")
    = Some (PFloat (FNum (str "12.4")))
  ∧ dict_lookup announce_1' (str "battery_voltage") = None
  ∧ battery_voltage <$>
      discovered_drones
        (ctl (_handle_drone_announcement 2000 announce_1' sample_addr world_1).2)
        !! KStr (str "drone-1")
    = Some (PInt 0)
  ∧ PInt 0 ≠ PFloat (FNum (str "12.4")).
Proof.
  rewrite (announcement_accepted _ announce_1' _ _ (KStr (str "drone-1"))) by reflexivity.
  cbn [snd ctl set_drones discovered_drones]. rewrite lookup_insert_eq.
  unfold world_1. cbn [ctl set_drones discovered_drones]. rewrite lookup_singleton_eq.
  repeat split; try reflexivity. discriminate.
Qed.

Lemma field_is_dict_get message key default :
  field_is message key default (dict_get message key default).
Proof. unfold field_is, dict_get. by destruct (dict_lookup message key). Qed.

(** C8, amended.  An announcement for an identifier that already has a
    record replaces the record: every field the payload supplies is stored,
    every field it does not supply takes its default (the name defaults to
    the identifier, the port to 14550, status, flight mode and firmware
    version to "unknown", battery voltage and signal strength to 0, GPS fix
    and armed to false), the address is the sender's host, and [last_seen]
    is the time of the announcement.  Nothing of the old record is kept. *)
Theorem announcement_replaces_record now message addr w k old :
  truthy (dict_get message (str "drone_id") PNone) = true →
  dict_key (dict_get message (str "drone_id") PNone) = Hashable k →
  discovered_drones (ctl w) !! k = Some old →
  ∃ r,
    discovered_drones (ctl (_handle_drone_announcement now message addr w).2) !! k
      = Some r
    ∧ last_seen r = now
    ∧ address r = host addr
    ∧ id_ r = dict_get message (str "drone_id") PNone
    ∧ field_is message (str "name") (id_ r) (name r)
    ∧ field_is message (str "port") (PInt 14550) (port r)
    ∧ field_is message (str "pixhawk_status") (PStr (str "unknown")) (status r)
    ∧ field_is message (str "battery_voltage") (PInt 0) (battery_voltage r)
    ∧ field_is message (str "gps_fix") (PBool false) (gps_fix r)
    ∧ field_is message (str "flight_mode") (PStr (str "unknown")) (flight_mode r)
    ∧ field_is message (str "armed") (PBool false) (armed r)
    ∧ field_is message (str "signal_strength") (PInt 0) (signal_strength r)
    ∧ field_is message (str "firmware_version") (PStr (str "unknown"))
        (firmware_version r).
Proof.
  intros Ht Hk _.
  rewrite (announcement_accepted _ _ _ _ k) by done. simpl.
  rewrite lookup_insert_eq. eexists; split; [reflexivity|].
  cbn [announced_record last_seen address id_ name port status battery_voltage
       gps_fix flight_mode armed signal_strength firmware_version].
  repeat split; apply field_is_dict_get.
Qed.

Lemma announcement_replaces_record_witness :
  ∃ r,
    discovered_drones
      (ctl (_handle_drone_announcement 2000 announce_1' sample_addr' world_1).2)
      !! KStr (str "drone-1") = Some r
    ∧ last_seen r = 2000%Z.
Proof.
  destruct (announcement_replaces_record 2000 announce_1' sample_addr' world_1
              (KStr (str "drone-1")) (announced_record 1000 announce_1 sample_addr))
    as (r & Hr & Hseen & _).
  - reflexivity.
  - reflexivity.
  - apply lookup_singleton_eq.
  - exists r. split; assumption.
Defined.

(** C3, as stated, fails on the text of the error: the code answers
    "Drone not found", with a capital letter. *)
Lemma send_command_missing_drone_error_text :
  (send_command_to_drone silent_env (PStr (str "missing-id")) (PStr (str "arm"))
     (PDict []) empty_world).1
  = Return (PDict [(str "success", PBool false);
                   (str "error", PStr (str "Drone not found"))])
  ∧ (send_command_to_drone silent_env (PStr (str "missing-id")) (PStr (str "arm"))
       (PDict []) empty_world).1
    ≠ Return (PDict [(str "success", PBool false);
                     (str "error", PStr (str "drone not found"))]).
Proof. split; [reflexivity | discriminate]. Qed.

(** C3, amended.  For an identifier that is not in the registry,
    [send_command_to_drone] returns [{success: False, error: "Drone not
    found"}] whatever the command and the parameters, and makes no call on
    any socket: the world, with its record of calls, is left as it was. *)
Theorem send_command_to_missing_drone e drone_id command params w k :
  dict_key drone_id = Hashable k →
  discovered_drones (ctl w) !! k = None →
  send_command_to_drone e drone_id command params w
  = (Return (PDict [(str "success", PBool false);
                    (str "error", PStr (str "Drone not found"))]), w).
Proof.
  intros Hk Hnone. unfold send_command_to_drone, hash_key. rewrite Hk.
  run_m. by rewrite Hnone.
Qed.

Lemma send_command_to_missing_drone_witness :
  send_command_to_drone silent_env (PStr (str "missing-id")) (PStr (str "arm"))
    (PDict []) world_1
  = (Return (PDict [(str "success", PBool false);
                    (str "error", PStr (str "Drone not found"))]), world_1).
Proof.
  apply (send_command_to_missing_drone _ _ _ _ _ (KStr (str "missing-id"))).
  - reflexivity.
  - apply lookup_singleton_ne. discriminate.
Defined.

Lemma lookup_handler_unsupported s :
  s ∉ supported_commands → lookup_handler command_handlers s = None.
Proof.
  intros Hs. unfold command_handlers, lookup_handler.
  repeat (case_decide; [exfalso; apply Hs; subst s; unfold supported_commands;
                        repeat ((left; fail) || right); try left | ]).
  reflexivity.
Qed.

(** C5, as stated, fails: for a command name outside the table the
    dispatcher builds no result and sends nothing back to the sender. *)
Lemma unknown_command_gets_no_response :
  _handle_drone_command silent_env silent_env hover_message sample_addr world_1
  = (Return (), world_1)
  ∧ ∀ data dest, IOServerSendto data dest ∉ io world_1.
Proof. split; [reflexivity | intros data dest; apply not_elem_of_nil]. Qed.

(** C5, amended.  For every inbound command message whose command name is
    not one of the seven supported ones, the dispatcher calls no handler and
    sends no response: the controller and the record of socket calls are
    unchanged, and the call returns, or raises [TypeError] when the name is
    a list or a dict. *)
Theorem unknown_command_is_dropped e e' message addr w :
  (∀ s, dict_get message (str "command") PNone = PStr s → s ∉ supported_commands) →
  (_handle_drone_command e e' message addr w).2 = w
  ∧ ((_handle_drone_command e e' message addr w).1 = Return ()
     ∨ ∃ msg, (_handle_drone_command e e' message addr w).1 = Raise (TypeError msg)).
Proof.
  intros Hns. unfold _handle_drone_command, find_handler.
  destruct (dict_get message (str "command") PNone) as [| b | z | f | s | l | d];
    run_m; eauto.
  rewrite lookup_handler_unsupported by auto. run_m. auto.
Qed.

Lemma unknown_command_is_dropped_witness :
  (_handle_drone_command silent_env silent_env hover_message sample_addr world_1).2
  = world_1.
Proof.
  apply unknown_command_is_dropped.
  intros s [= <-]. unfold supported_commands.
  rewrite !elem_of_cons, elem_of_nil. intros H.
  repeat (destruct H as [H | H]; [discriminate H |]). exact H.
Defined.

(** C7.  For a drone that is in the registry, [send_command_to_drone]
    always returns and never raises, whatever the network does.  The value
    is a failure result [{success: False, error: message}] unless a reply
    arrived and was decoded to a dict, whose [result] is then returned; in
    particular a timeout or a socket error while waiting for the reply gives
    the failure result, with the text of that exception once the command has
    gone out.  The controller state is not changed. *)
Theorem send_command_never_raises e drone_id command params w k drone_info :
  dict_key drone_id = Hashable k →
  discovered_drones (ctl w) !! k = Some drone_info →
  ∃ v w',
    send_command_to_drone e drone_id command params w = (Return v, w')
    ∧ ctl w' = ctl w
    ∧ ((∃ msg, v = failure msg)
       ∨ (∃ data text resp,
            recvfrom_result e = inr data ∧ Utf8.decode data = Some text
            ∧ Json.loads (decoder_depth e) text = Some (PDict resp)
            ∧ v = dict_get resp (str "result") success_default))
    ∧ (∀ x, recvfrom_result e = inl x → ∃ msg, v = failure msg)
    ∧ (∀ x data,
         socket_error e = None →
         message_bytes e (command_message e drone_id command params) = Some data →
         sendto_error e data (address drone_info) (port drone_info) = None →
         recvfrom_result e = inl x →
         v = failure (exn_str x)).
Proof.
  intros Hk Hin.
  unfold send_command_to_drone, encode_message, decode_message, message_bytes.
  run_m. rewrite Hk. run_m. rewrite Hin.
  destruct (socket_error e) as [x1|] eqn:Hsock; cbn [ctl io].
  { eexists _, _. split; [reflexivity|]. repeat split; eauto; discriminate. }
  destruct (Json.dumps (encoder_depth e) (command_message e drone_id command params))
    as [sent_text|] eqn:Hdumps; cbn [ctl io].
  2: { eexists _, _. split; [reflexivity|]. repeat split; eauto; discriminate. }
  destruct (Utf8.encode sent_text) as [data|] eqn:Henc; cbn [ctl io].
  2: { eexists _, _. split; [reflexivity|]. repeat split; eauto; discriminate. }
  destruct (sendto_error e data (address drone_info) (port drone_info))
    as [x2|] eqn:Hsend; cbn [ctl io].
  { eexists _, _. split; [reflexivity|]. repeat split; eauto.
    intros x d _ [= <-]. congruence. }
  destruct (recvfrom_result e) as [x3|reply] eqn:Hrecv; cbn [ctl io].
  { eexists _, _. split; [reflexivity|]. repeat split; eauto.
    intros x d _ _ _ [= <-]. reflexivity. }
  destruct (Utf8.decode reply) as [text|] eqn:Hdec; cbn [ctl io].
  2: { eexists _, _. split; [reflexivity|]. repeat split; eauto; discriminate. }
  destruct (Json.loads (decoder_depth e) text) as [response|] eqn:Hloads; cbn [ctl io].
  2: { eexists _, _. split; [reflexivity|]. repeat split; eauto; discriminate. }
  unfold py_get.
  destruct response; run_m;
    (eexists _, _; split; [reflexivity|]; repeat split; eauto; try discriminate).
  right. eauto 10.
Qed.

Lemma send_command_never_raises_witness :
  ∃ v w',
    send_command_to_drone silent_env (PStr (str "drone-1")) (PStr (str "takeoff"))
      (PDict [(str "altitude", PFloat (FNum (str "15.0")))]) world_1
    = (Return v, w')
    ∧ ctl w' = ctl world_1.
Proof.
  destruct (send_command_never_raises silent_env (PStr (str "drone-1"))
              (PStr (str "takeoff"))
              (PDict [(str "altitude", PFloat (FNum (str "15.0")))]) world_1
              (KStr (str "drone-1")) (announced_record 1000 announce_1 sample_addr))
    as (v & w' & Hrun & Hctl & _).
  - reflexivity.
  - apply lookup_singleton_eq.
  - exists v, w'. split; assumption.
Defined.

(** With no reply the takeoff command ends in the timeout failure. *)
Example takeoff_without_reply :
  (send_command_to_drone silent_env (PStr (str "drone-1")) (PStr (str "takeoff"))
     (PDict [(str "altitude", PFloat (FNum (str "15.0")))]) world_1).1
  = Return (failure (str "timed out")).
Proof.
  assert (H : discovered_drones (ctl world_1) !! KStr (str "drone-1")
              = Some (announced_record 1000 announce_1 sample_addr))
    by apply lookup_singleton_eq.
  unfold send_command_to_drone. run_m. cbn [dict_key]. rewrite H. reflexivity.
Qed.

(** With the socket bound and no thread to be had, [start_server] returns
    [False]: the claim that it returns [True] when the bind succeeds fails
    there. *)
Lemma start_server_false_after_bind :
  socket_error no_thread_env = None
  ∧ setsockopt_error no_thread_env = None
  ∧ bind_error no_thread_env = None
  ∧ (start_server no_thread_env empty_world).1 = Return false.
Proof. repeat split. Qed.


(** With the port taken the controller reports failure and stays stopped. *)
Example start_server_port_taken :
  ∃ w', start_server port_taken_env empty_world = (Return false, w')
        ∧ running (ctl w') = false.
Proof. eexists. split; reflexivity. Qed.

Example start_server_ok :
  ∃ w', start_server silent_env empty_world = (Return true, w')
        ∧ running (ctl w') = true.
Proof. eexists. split; reflexivity. Qed.

Lemma lookup_foldr_delete (m : gmap dkey DroneRecord) ks k :
  foldr delete m ks !! k = if decide (k ∈ ks) then None else m !! k.
Proof.
  induction ks as [|k' ks IH]; cbn [foldr].
  - rewrite decide_False; [done | apply not_elem_of_nil].
  - rewrite lookup_delete, IH.
    destruct (decide (k' = k)) as [-> | Hne].
    + rewrite decide_True; [done | apply elem_of_cons; by left].
    + destruct (decide (k ∈ ks)).
      * rewrite decide_True; [done | apply elem_of_cons; by right].
      * rewrite decide_False; [done |].
        rewrite elem_of_cons. intros [?|?]; congruence.
Qed.

Lemma elem_of_expired_drones now (m : gmap dkey DroneRecord) k :
  k ∈ expired_drones now m ↔ ∃ r, m !! k = Some r ∧ expired now r = true.
Proof.
  unfold expired_drones. rewrite list_elem_of_fmap. split.
  - intros ([k' r] & -> & Hin). apply list_elem_of_filter in Hin as [He Hin].
    apply elem_of_map_to_list in Hin. eauto.
  - intros (r & Hr & He). exists (k, r). split; [done |].
    apply list_elem_of_filter. split; [done | by apply elem_of_map_to_list].
Qed.

(** What [get_discovered_drones] returns and leaves behind. *)
Lemma get_discovered_drones_spec now w :
  ∃ snap,
    get_discovered_drones now w
      = (Return snap, {| ctl := set_drones (ctl w) snap; io := io w |})
    ∧ ∀ k, snap !! k =
           match discovered_drones (ctl w) !! k with
           | Some r => if expired now r then None else Some r
           | None => None
           end.
Proof.
  unfold get_discovered_drones. run_m.
  eexists. split; [reflexivity |]. intros k.
  rewrite lookup_foldr_delete. case_decide as Hin.
  - apply elem_of_expired_drones in Hin as (r & -> & ->). done.
  - destruct (discovered_drones (ctl w) !! k) as [r|] eqn:Hr; [|done].
    destruct (expired now r) eqn:He; [|done].
    exfalso. apply Hin, elem_of_expired_drones. eauto.
Qed.

Lemma serve_returns r w :
  modelled r → ∃ w', serve r w = (Return (), w').
Proof.
  destruct r as [now message addr | now]; simpl; intros Hm.
  - destruct (truthy (dict_get message (str "drone_id") PNone)) eqn:Ht.
    + destruct (dict_key (dict_get message (str "drone_id") PNone)) as [k|x|] eqn:Hk.
      * unfold try_except. rewrite (announcement_accepted _ _ _ _ k) by done. eauto.
      * unfold try_except. rewrite (announcement_unhashable _ _ _ _ x) by done.
        run_m. eauto.
      * by destruct Hm.
    + unfold try_except. rewrite announcement_falsy by done. eauto.
  - destruct (get_discovered_drones_spec now w) as (snap & Hrun & _).
    run_m. rewrite Hrun. eauto.
Qed.

Lemma serve_all_returns rs w :
  Forall modelled rs → ∃ w', serve_all rs w = (Return (), w').
Proof.
  intros Hm. revert w. induction Hm as [|r rs Hr _ IH]; intros w; simpl.
  - run_m. eauto.
  - destruct (serve_returns r w Hr) as (w1 & H1). run_m. rewrite H1. apply IH.
Qed.

Lemma bind_return {A B} (m : M A) (f : A → M B) w a w1 :
  m w = (Return a, w1) → (m ≫= f) w = f a w1.
Proof. intros H. run_m. by rewrite H. Qed.

Lemma serve_all_cons r rs w w1 :
  serve r w = (Return (), w1) → serve_all (r :: rs) w = serve_all rs w1.
Proof. intros H. cbn [serve_all]. by rewrite (bind_return _ _ _ _ _ H). Qed.

Lemma serve_all_app rs1 rs2 w w1 :
  serve_all rs1 w = (Return (), w1) →
  serve_all (rs1 ++ rs2) w = serve_all rs2 w1.
Proof.
  revert w. induction rs1 as [|r rs1 IH]; intros w; simpl.
  - run_m. by intros [= ->].
  - run_m. destruct (serve r w) as [[[]|x|] w']; try discriminate. apply IH.
Qed.

(** A request that does not announce [k] leaves the record of [k] alone,
    unless it is a snapshot that finds the record expired. *)
Lemma serve_other_key r w w' k :
  ¬ announces k r → serve r w = (Return (), w') →
  discovered_drones (ctl w') !! k =
    match r, discovered_drones (ctl w) !! k with
    | Snapshot now, Some rec => if expired now rec then None else Some rec
    | _, o => o
    end.
Proof.
  destruct r as [now message addr | now]; simpl; intros Hk Hrun.
  - destruct (truthy (dict_get message (str "drone_id") PNone)) eqn:Ht.
    + destruct (dict_key (dict_get message (str "drone_id") PNone)) as [k'|x|] eqn:Hk'.
      * unfold try_except in Hrun.
        rewrite (announcement_accepted _ _ _ _ k') in Hrun by done.
        injection Hrun as <-. simpl. apply lookup_insert_ne.
        intros ->. apply Hk. unfold announced_key. by rewrite Ht, Hk'.
      * unfold try_except in Hrun.
        rewrite (announcement_unhashable _ _ _ _ x) in Hrun by done.
        run_m. by injection Hrun as <-.
      * unfold try_except, _handle_drone_announcement in Hrun.
        rewrite Ht in Hrun. run_m. by rewrite Hk' in Hrun.
    + unfold try_except in Hrun. rewrite announcement_falsy in Hrun by done.
      by injection Hrun as <-.
  - destruct (get_discovered_drones_spec now w) as (snap & Hs & Hsnap).
    run_m. rewrite Hs in Hrun. injection Hrun as <-. simpl.
    rewrite Hsnap. by destruct (discovered_drones (ctl w) !! k).
Qed.

Lemma serve_all_keeps rs w w' k rec :
  Forall (λ r, ¬ announces k r) rs →
  Forall (λ r, ∀ now, r = Snapshot now → expired now rec = false) rs →
  serve_all rs w = (Return (), w') →
  discovered_drones (ctl w) !! k = Some rec →
  discovered_drones (ctl w') !! k = Some rec.
Proof.
  intros Hk. revert w. induction Hk as [|r rs Hr _ IH]; intros w Hlive Hrun Hin.
  - simpl in Hrun. run_m. by injection Hrun as <-.
  - apply Forall_cons_1 in Hlive as [Hlive1 Hlive]. simpl in Hrun. run_m.
    destruct (serve r w) as [[[]|x|] w1] eqn:H1; try discriminate.
    apply (IH w1 Hlive Hrun).
    rewrite (serve_other_key _ _ _ _ Hr H1), Hin.
    destruct r as [|now]; [done |]. by rewrite (Hlive1 now eq_refl).
Qed.

Lemma serve_all_keeps_or_drops rs w w' k rec :
  Forall (λ r, ¬ announces k r) rs →
  serve_all rs w = (Return (), w') →
  discovered_drones (ctl w) !! k = Some rec ∨ discovered_drones (ctl w) !! k = None →
  discovered_drones (ctl w') !! k = Some rec ∨ discovered_drones (ctl w') !! k = None.
Proof.
  intros Hk. revert w. induction Hk as [|r rs Hr _ IH]; intros w Hrun Hin.
  - simpl in Hrun. run_m. by injection Hrun as <-.
  - simpl in Hrun. run_m.
    destruct (serve r w) as [[[]|x|] w1] eqn:H1; try discriminate.
    apply (IH w1 Hrun). rewrite (serve_other_key _ _ _ _ Hr H1).
    destruct Hin as [-> | ->].
    + destruct r as [|now]; [by left |]. destruct (expired now rec); auto.
    + destruct r; by right.
Qed.

(** C1.  Take any history of announcements and snapshot calls in which the
    most recent announcement for a drone came at time [t], and call
    [get_discovered_drones] at time [now].  The call returns the registry
    it leaves behind, in which no record is older than 30 seconds; the drone
    is absent when its announcement is more than 30 seconds old, and present
    with the announced record when it is not (the clock not having run
    backwards between the snapshot calls since and this one). *)
Theorem snapshot_holds_live_drones rs1 t message addr rs2 now w0 k :
  announced_key message = Some k →
  Forall (λ r, ¬ announces k r) rs2 →
  Forall modelled (rs1 ++ Announce t message addr :: rs2) →
  ∃ snap w,
    (serve_all (rs1 ++ Announce t message addr :: rs2);;
     get_discovered_drones now) w0 = (Return snap, w)
    ∧ discovered_drones (ctl w) = snap
    ∧ (∀ k' r, snap !! k' = Some r → (now - last_seen r ≤ 30000000)%Z)
    ∧ ((∀ s, Snapshot s ∈ rs2 → (s ≤ now)%Z) →
       (now - t ≤ 30000000)%Z →
       snap !! k = Some (announced_record t message addr))
    ∧ ((30000000 < now - t)%Z → snap !! k = None).
Proof.
  intros Hk Hlast Hmod.
  destruct (serve_all_returns _ w0 Hmod) as (w2 & Hall).
  apply Forall_app in Hmod as [Hmod1 Hmod2].
  destruct (serve_all_returns _ w0 Hmod1) as (w1 & H1).
  set (wa := {| ctl := set_drones (ctl w1)
                         (<[k := announced_record t message addr]>
                            (discovered_drones (ctl w1)));
                io := io w1 |}).
  assert (Hacc : serve (Announce t message addr) w1 = (Return (), wa)).
  { unfold announced_key in Hk. cbn [serve]. unfold try_except.
    destruct (truthy (dict_get message (str "drone_id") PNone)) eqn:Ht; [|done].
    destruct (dict_key (dict_get message (str "drone_id") PNone)) as [k'| |] eqn:Hk';
      try done.
    injection Hk as ->. by rewrite (announcement_accepted _ _ _ _ k). }
  assert (H2 : serve_all rs2 wa = (Return (), w2)).
  { by rewrite (serve_all_app _ _ _ _ H1), (serve_all_cons _ _ _ _ Hacc) in Hall. }
  assert (Hin : discovered_drones (ctl wa) !! k = Some (announced_record t message addr))
    by apply lookup_insert_eq.
  destruct (get_discovered_drones_spec now w2) as (snap & Hs & Hsnap).
  exists snap, {| ctl := set_drones (ctl w2) snap; io := io w2 |}.
  rewrite (bind_return _ _ _ _ _ Hall).
  rewrite Hs. split; [done |]. split; [done |]. split; [|split].
  - intros k' r. rewrite Hsnap.
    destruct (discovered_drones (ctl w2) !! k') as [r'|]; [|done].
    destruct (expired now r') eqn:He; [done |]. intros [= <-].
    unfold expired in He. lia.
  - intros Hclock Hage. rewrite Hsnap.
    rewrite (serve_all_keeps rs2 wa w2 k (announced_record t message addr));
      try done.
    + unfold expired. simpl. destruct (Z.ltb_spec 30000000 (now - t)); [lia | done].
    + apply Forall_forall. intros r Hr s ->. specialize (Hclock s Hr).
      unfold expired. simpl. destruct (Z.ltb_spec 30000000 (s - t)); [lia | done].
  - intros Hage. rewrite Hsnap.
    destruct (serve_all_keeps_or_drops rs2 wa w2 k _ Hlast H2 (or_introl Hin))
      as [-> | ->]; [|done].
    unfold expired. simpl. destruct (Z.ltb_spec 30000000 (now - t)); [done | lia].
Qed.

Lemma snapshot_holds_live_drones_witness :
  ∃ snap w,
    (serve_all ([] ++ Announce 1000 announce_1 sample_addr :: [Snapshot 500000]);;
     get_discovered_drones 1001000) empty_world = (Return snap, w)
    ∧ snap !! KStr (str "drone-1") = Some (announced_record 1000 announce_1 sample_addr).
Proof.
  destruct (snapshot_holds_live_drones [] 1000 announce_1 sample_addr
              [Snapshot 500000] 1001000 empty_world (KStr (str "drone-1")))
    as (snap & w & Hrun & _ & _ & Hlive & _).
  - reflexivity.
  - repeat constructor. intros [].
  - repeat constructor. intros _. discriminate.
  - exists snap, w. split; [exact Hrun |]. apply Hlive.
    + intros s Hs. apply list_elem_of_singleton in Hs. injection Hs as ->. lia.
    + lia.
Defined.

(** The scenario of a drone seen once: listed within a second with its
    battery voltage, gone after 31 seconds. *)
Example drone_1_listed_then_expired :
  (∃ snap w, get_discovered_drones 1000000 world_seen = (Return snap, w)
             ∧ battery_voltage <$> snap !! KStr (str "drone-1")
               = Some (PFloat (FNum (str "12.4"))))
  ∧ (∃ snap w, get_discovered_drones 31000000 world_seen = (Return snap, w)
               ∧ snap !! KStr (str "drone-1") = None).
Proof.
  split.
  - destruct (get_discovered_drones_spec 1000000 world_seen) as (snap & Hrun & Hsnap).
    eexists snap, _. split; [exact Hrun |]. rewrite Hsnap. vm_compute. reflexivity.
  - destruct (get_discovered_drones_spec 31000000 world_seen) as (snap & Hrun & Hsnap).
    eexists snap, _. split; [exact Hrun |]. rewrite Hsnap. vm_compute. reflexivity.
Qed.

(** * The codec reads back what it writes *)

Module JsonFacts.
Import Json JsonSpec.

Lemma delimiter_cases c : delimiter c = true → c = 44 ∨ c = 93 ∨ c = 125.
Proof.
  unfold delimiter. rewrite !orb_true_iff, !N.eqb_eq. tauto.
Qed.

Ltac delim_cases H :=
  apply delimiter_cases in H as [-> | [-> | ->]].

Lemma take_digits_app s ds r rest :
  take_digits s = (ds, r) → delimited rest →
  take_digits (s ++ rest) = (ds, r ++ rest).
Proof.
  intros Hs Hrest. revert ds r Hs. induction s as [|c s IH]; intros ds r Hs.
  - injection Hs as <- <-. destruct rest as [|c rest]; [done |].
    simpl in Hrest. delim_cases Hrest; reflexivity.
  - simpl in *. destruct (is_digit c).
    + destruct (take_digits s) as [ds' r'] eqn:Hd. injection Hs as <- <-.
      by rewrite (IH ds' r').
    + by injection Hs as <- <-.
Qed.

Lemma match_frac_app s fr r rest :
  match_frac s = (fr, r) → delimited rest →
  match_frac (s ++ rest) = (fr, r ++ rest).
Proof.
  intros Hs Hrest. destruct s as [|c s].
  - injection Hs as <- <-. destruct rest as [|c rest]; [done |].
    simpl in Hrest. delim_cases Hrest; reflexivity.
  - simpl in *. destruct (c =? 46); [| by injection Hs as <- <-].
    destruct (take_digits s) as [ds r'] eqn:Hd.
    rewrite (take_digits_app _ _ _ _ Hd Hrest).
    destruct ds; by injection Hs as <- <-.
Qed.

Lemma match_exp_app s ex r rest :
  match_exp s = (ex, r) → delimited rest →
  match_exp (s ++ rest) = (ex, r ++ rest).
Proof.
  intros Hs Hrest. destruct s as [|e s].
  - injection Hs as <- <-. destruct rest as [|c rest]; [done |].
    simpl in Hrest. delim_cases Hrest; reflexivity.
  - cbn [match_exp app] in *. destruct ((e =? 101) || (e =? 69));
      [| by injection Hs as <- <-].
    destruct s as [|c s].
    + cbn [app take_digits] in *. injection Hs as <- <-.
      destruct rest as [|c rest]; [done |].
      simpl in Hrest. delim_cases Hrest; reflexivity.
    + cbn [app] in *. destruct ((c =? 43) || (c =? 45)).
      * destruct (take_digits s) as [ds r'] eqn:Hd.
        rewrite (take_digits_app _ _ _ _ Hd Hrest).
        destruct ds; by injection Hs as <- <-.
      * destruct (take_digits (c :: s)) as [ds r'] eqn:Hd.
        change (c :: s ++ rest) with ((c :: s) ++ rest).
        rewrite (take_digits_app _ _ _ _ Hd Hrest).
        destruct ds; by injection Hs as <- <-.
Qed.

Lemma match_unsigned_app neg s v r rest :
  match_unsigned neg s = Some (v, r) → delimited rest →
  match_unsigned neg (s ++ rest) = Some (v, r ++ rest).
Proof.
  intros Hs Hrest. destruct s as [|d s]; [done |].
  cbn [match_unsigned app] in *. destruct (is_digit d); [| done].
  assert (Hip : ∀ ip r1,
            (if d =? 48 then ([48], s)
             else let '(ds, r0) := take_digits s in (d :: ds, r0)) = (ip, r1) →
            (if d =? 48 then ([48], s ++ rest)
             else let '(ds, r0) := take_digits (s ++ rest) in (d :: ds, r0))
            = (ip, r1 ++ rest)).
  { intros ip r1. destruct (d =? 48); [by intros [= <- <-] |].
    destruct (take_digits s) as [ds r0] eqn:Hd.
    rewrite (take_digits_app _ _ _ _ Hd Hrest). by intros [= <- <-]. }
  destruct (if d =? 48 then _ else _) as [ip r1] eqn:Hi in Hs.
  rewrite (Hip _ _ Hi).
  destruct (match_frac r1) as [fr r2] eqn:Hf.
  rewrite (match_frac_app _ _ _ _ Hf Hrest).
  destruct (match_exp r2) as [ex r3] eqn:He.
  rewrite (match_exp_app _ _ _ _ He Hrest).
  destruct fr, ex; try (by injection Hs as <- <-).
  destruct (int_of_text neg ip); [by injection Hs as <- <- | done].
Qed.

Lemma match_number_app s v r rest :
  match_number s = Some (v, r) → delimited rest →
  match_number (s ++ rest) = Some (v, r ++ rest).
Proof.
  intros Hs Hrest. destruct s as [|c s]; [done |].
  cbn [match_number app] in *. destruct (c =? 45).
  - by apply match_unsigned_app.
  - by apply (match_unsigned_app _ (c :: s)).
Qed.

Lemma take_digits_uint_chars u : take_digits (uint_chars u) = (uint_chars u, []).
Proof. induction u; simpl; rewrite ?IHu; reflexivity. Qed.

Lemma chars_uint_uint_chars u : chars_uint (uint_chars u) = u.
Proof. induction u; simpl; rewrite ?IHu; reflexivity. Qed.

(** A numeral without leading zeros is the single digit 0 or starts with
    another digit. *)
Lemma unorm_fixpoint_head u :
  unorm u = u →
  u = D0 Nil ∨ ∃ c cs, uint_chars u = c :: cs ∧ is_digit c = true ∧ (c =? 48) = false.
Proof.
  intros Hu. destruct u as [|u|u|u|u|u|u|u|u|u|u];
    try (right; eexists _, _; split; [reflexivity | split; reflexivity]).
  - discriminate Hu.
  - left. destruct u as [|u|u|u|u|u|u|u|u|u|u]; [reflexivity | exfalso ..];
      rewrite DecimalFacts.unorm_D0 in Hu;
      match type of Hu with
      | unorm ?d = _ =>
          pose proof (DecimalFacts.nb_digits_unorm d ltac:(discriminate)) as Hn;
          rewrite Hu in Hn; simpl in Hn; lia
      end.
Qed.

Lemma to_uint_normal n : unorm (N.to_uint n) = N.to_uint n.
Proof.
  rewrite <- (DecimalN.Unsigned.of_to n) at 2.
  symmetry. apply DecimalN.Unsigned.to_of.
Qed.

Lemma int_of_text_uint neg n :
  (length (uint_chars (N.to_uint n)) ≤ max_str_digits)%nat →
  int_of_text neg (uint_chars (N.to_uint n))
  = Some (if neg then - Z.of_N n else Z.of_N n)%Z.
Proof.
  intros Hlen. unfold int_of_text.
  rewrite (proj2 (Nat.leb_le _ _) Hlen).
  by rewrite chars_uint_uint_chars, DecimalN.Unsigned.of_to.
Qed.

Lemma match_unsigned_uint neg n :
  (length (uint_chars (N.to_uint n)) ≤ max_str_digits)%nat →
  match_unsigned neg (uint_chars (N.to_uint n))
  = Some (PInt (if neg then - Z.of_N n else Z.of_N n)%Z, []).
Proof.
  intros Hlen. pose proof (int_of_text_uint neg n Hlen) as Hval.
  destruct (unorm_fixpoint_head _ (to_uint_normal n)) as [H0 | (c & cs & Hc & Hd & Hz)].
  - rewrite H0 in *. cbn [uint_chars] in *. cbn [match_unsigned].
    change (is_digit 48) with true. change (48 =? 48) with true.
    cbn [match_frac match_exp]. by rewrite Hval.
  - assert (Hcs : take_digits cs = (cs, [])).
    { pose proof (take_digits_uint_chars (N.to_uint n)) as Ht.
      rewrite Hc in Ht. simpl in Ht. rewrite Hd in Ht.
      destruct (take_digits cs) as [ds r]. by injection Ht as -> ->. }
    rewrite Hc in *. cbn [match_unsigned]. rewrite Hd, Hz, Hcs.
    cbn [match_frac match_exp]. by rewrite Hval.
Qed.

Lemma uint_chars_head n :
  ∃ c cs, uint_chars (N.to_uint n) = c :: cs ∧ is_digit c = true.
Proof.
  destruct (unorm_fixpoint_head _ (to_uint_normal n)) as [-> | (c & cs & Hc & Hd & _)].
  - by eexists _, _.
  - eauto.
Qed.

Lemma match_number_int_text z :
  (length (int_digits z) ≤ max_str_digits)%nat →
  match_number (int_text z) = Some (PInt z, []).
Proof.
  unfold int_digits. destruct z as [|p|p]; unfold int_text; intros Hlen.
  - reflexivity.
  - change (Z.abs_N (Z.pos p)) with (N.pos p) in Hlen.
    change (Z.to_N (Z.pos p)) with (N.pos p).
    destruct (uint_chars_head (N.pos p)) as (c & cs & Hc & Hd).
    pose proof (match_unsigned_uint false (N.pos p) Hlen) as Hm.
    rewrite Hc in *. cbn [match_number].
    replace (c =? 45) with false; [exact Hm |].
    unfold is_digit in Hd. apply andb_true_iff in Hd as [H1 H2].
    apply N.leb_le in H1, H2. symmetry. apply N.eqb_neq. lia.
  - change (Z.abs_N (Z.neg p)) with (N.pos p) in Hlen.
    cbn [match_number]. change (45 =? 45) with true.
    apply (match_unsigned_uint true (N.pos p) Hlen).
Qed.

(** [int.__repr__] writes the text of an int of at most 4300 digits. *)
Lemma int_repr_text z :
  (length (int_digits z) ≤ max_str_digits)%nat → int_repr z = Some (int_text z).
Proof.
  intros Hlen. unfold int_repr. rewrite (proj2 (Nat.leb_le _ _) Hlen).
  unfold int_digits. by destruct z.
Qed.

Lemma in_N_range len start n :
  start <= n → n < start + N.of_nat len → In n (N_range len start).
Proof.
  revert start. induction len as [|len IH]; intros start Hlo Hhi; [lia |].
  cbn [N_range]. destruct (N.eq_dec start n) as [-> | Hne]; [by left |].
  right. apply IH; lia.
Qed.

Lemma forallb_below (f : N → bool) (bound : N) :
  forallb f (N_range (N.to_nat bound) 0) = true →
  ∀ n, n < bound → f n = true.
Proof.
  intros Hall n Hn. rewrite forallb_forall in Hall. apply Hall.
  apply in_N_range; lia.
Qed.

Lemma hex4_reads_back_all n : n < 65536 → hex4_reads_back n = true.
Proof. apply forallb_below. vm_compute. reflexivity. Qed.

Lemma decode_hex4 n :
  n < 65536 →
  ∃ a b c d, hex4 n = [a; b; c; d] ∧ decode_uXXXX a b c d = Some n.
Proof.
  intros Hn. pose proof (hex4_reads_back_all n Hn) as H.
  unfold hex4_reads_back in H. unfold hex4 in *.
  eexists _, _, _, _. split; [reflexivity |].
  destruct (decode_uXXXX _ _ _ _) as [m|]; [| discriminate].
  apply N.eqb_eq in H. by subst.
Qed.

Lemma lor_low_bits base (bits : N) x :
  forallb (λ y, N.lor base y =? base + y) (N_range (N.to_nat bits) 0) = true →
  x < bits → N.lor base x = base + x.
Proof.
  intros Hall Hx. apply N.eqb_eq.
  by apply (forallb_below (λ y, N.lor base y =? base + y) bits).
Qed.

Lemma land_shiftl_low x y k : y < 2 ^ k → N.land (N.shiftl x k) y = 0.
Proof.
  intros Hy. apply N.bits_inj_0. intros i. rewrite N.land_spec.
  destruct (N.lt_ge_cases i k) as [Hi | Hi].
  - by rewrite N.shiftl_spec_low.
  - rewrite andb_false_iff. right.
    destruct (N.eq_dec y 0) as [-> | Hy0]; [apply N.bits_0 |].
    apply N.bits_above_log2. apply N.log2_lt_pow2; [lia |].
    eapply N.lt_le_trans; [exact Hy |]. apply N.pow_le_mono_r; lia.
Qed.

Lemma lor_shiftl_add x y k : y < 2 ^ k → N.lor (N.shiftl x k) y = x * 2 ^ k + y.
Proof.
  intros Hy. rewrite <- N.lxor_lor by by apply land_shiftl_low.
  rewrite <- N.add_nocarry_lxor by by apply land_shiftl_low.
  by rewrite N.shiftl_mul_pow2.
Qed.

(** The two halves written for a code point above 0xFFFF, and their sum. *)
Lemma surrogate_pair c :
  65536 <= c → c < 1114112 →
  let n := c - 65536 in
  let hi := N.lor 55296 (N.land (N.shiftr n 10) 1023) in
  let lo := N.lor 56320 (N.land n 1023) in
  hi < 65536 ∧ lo < 65536 ∧ is_high_surrogate hi = true
  ∧ is_low_surrogate lo = true ∧ combine_surrogates hi lo = c.
Proof.
  intros Hlo Hhi n hi lo.
  assert (Hn : n < 1048576) by (unfold n; lia).
  assert (Hx : N.land (N.shiftr n 10) 1023 = n / 1024).
  { change 1023 with (N.ones 10). rewrite N.land_ones, N.shiftr_div_pow2.
    change (2 ^ 10) with 1024. apply N.mod_small.
    apply N.Div0.div_lt_upper_bound. lia. }
  assert (Hy : N.land n 1023 = n mod 1024).
  { change 1023 with (N.ones 10). by rewrite N.land_ones. }
  assert (Hx' : n / 1024 < 1024) by (apply N.Div0.div_lt_upper_bound; lia).
  assert (Hy' : n mod 1024 < 1024) by (apply N.mod_lt; lia).
  assert (Hhi_eq : hi = 55296 + n / 1024).
  { unfold hi. rewrite Hx. apply (lor_low_bits _ 1024); [by vm_compute | done]. }
  assert (Hlo_eq : lo = 56320 + n mod 1024).
  { unfold lo. rewrite Hy. apply (lor_low_bits _ 1024); [by vm_compute | done]. }
  unfold is_high_surrogate, is_low_surrogate, combine_surrogates.
  rewrite Hhi_eq, Hlo_eq.
  repeat split; try lia.
  - apply andb_true_iff. split; apply N.leb_le; lia.
  - apply andb_true_iff. split; apply N.leb_le; lia.
  - replace (55296 + n / 1024 - 55296) with (n / 1024) by lia.
    replace (56320 + n mod 1024 - 56320) with (n mod 1024) by lia.
    rewrite lor_shiftl_add by (change (2 ^ 10) with 1024; lia).
    change (2 ^ 10) with 1024.
    pose proof (N.div_mod n 1024 ltac:(lia)). unfold n in *. lia.
Qed.

Lemma scanstring_u_escape u tail :
  u < 65536 → is_high_surrogate u = false →
  scanstring (u_escape u ++ tail) = push_char u (scanstring tail).
Proof.
  intros Hu Hs. destruct (decode_hex4 u Hu) as (a & b & c & d & Hh & Hd).
  unfold u_escape. rewrite Hh. cbn [app scanstring].
  change (92 =? 34) with false. change (92 =? 92) with true.
  change (117 =? 117) with true. cbn iota. rewrite Hd, Hs.
  by destruct tail as [|b1 [|b2 tail]].
Qed.

Lemma scanstring_escape_char c tail :
  scalar_value c = true →
  scanstring (escape_char c ++ tail) = push_char c (scanstring tail).
Proof.
  unfold scalar_value, Utf8.is_surrogate. intros Hc.
  apply andb_true_iff in Hc as [Hmax Hsur]. apply N.ltb_lt in Hmax.
  apply negb_true_iff, andb_false_iff in Hsur.
  unfold escape_char.
  destruct (N.eqb_spec c 34) as [-> | H34]; [reflexivity |].
  destruct (N.eqb_spec c 92) as [-> | H92]; [reflexivity |].
  destruct (N.eqb_spec c 10) as [-> | H10]; [reflexivity |].
  destruct (N.eqb_spec c 13) as [-> | H13]; [reflexivity |].
  destruct (N.eqb_spec c 9) as [-> | H9]; [reflexivity |].
  destruct (N.eqb_spec c 8) as [-> | H8]; [reflexivity |].
  destruct (N.eqb_spec c 12) as [-> | H12]; [reflexivity |].
  destruct ((32 <=? c) && (c <=? 126)) eqn:Hprint.
  - apply andb_true_iff in Hprint as [Hp1 Hp2]. apply N.leb_le in Hp1.
    cbn [app scanstring].
    destruct (N.eqb_spec c 34); [done |]. destruct (N.eqb_spec c 92); [done |].
    destruct (N.ltb_spec c 32); [lia | done].
  - destruct (N.ltb_spec c 65536) as [Hbmp | Hastral].
    + apply scanstring_u_escape; [done |].
      unfold is_high_surrogate. apply andb_false_iff.
      destruct Hsur as [Hsur | Hsur]; [by left |].
      apply N.leb_gt in Hsur. right. apply N.leb_gt. lia.
    + destruct (surrogate_pair c Hastral Hmax) as (Hhi & Hlo & Hhs & Hls & Hcomb).
      cbv zeta in *.
      set (hi := N.lor 55296 _) in *. set (lo := N.lor 56320 _) in *.
      destruct (decode_hex4 hi Hhi) as (a & b & c1 & d & Hh & Hd).
      destruct (decode_hex4 lo Hlo) as (a' & b' & c' & d' & Hh' & Hd').
      unfold u_escape. rewrite Hh, Hh'. cbn [app scanstring].
      change (92 =? 34) with false. change (92 =? 92) with true.
      change (117 =? 117) with true. cbn iota.
      rewrite Hd, Hhs. cbn [andb]. rewrite Hd', Hls, Hcomb. reflexivity.
Qed.

Lemma scanstring_escaped s rest :
  forallb scalar_value s = true →
  scanstring (flat_map escape_char s ++ 34 :: rest) = Some (s, rest).
Proof.
  induction s as [|c s IH]; intros Hs.
  - reflexivity.
  - cbn [forallb] in Hs. apply andb_true_iff in Hs as [Hc Hs].
    cbn [flat_map]. rewrite <- app_assoc, scanstring_escape_char by done.
    by rewrite IH.
Qed.

Lemma valid_float_num lit :
  valid_float (FNum lit) = true → match_number lit = Some (PFloat (FNum lit), []).
Proof.
  unfold valid_float. destruct (match_number lit) as [[[| | |[lit'| |]| | |] [|]]|];
    try discriminate.
  intros H. apply bool_decide_eq_true in H. by subst.
Qed.

Lemma ascii_text_app s t : ascii_text s → ascii_text t → ascii_text (s ++ t).
Proof. apply Forall_app_2. Qed.

Lemma is_digit_bounds c : is_digit c = true → 48 <= c ∧ c <= 57.
Proof.
  unfold is_digit. rewrite andb_true_iff, !N.leb_le. tauto.
Qed.

Lemma take_digits_ascii s ds r : take_digits s = (ds, r) → ascii_text ds.
Proof.
  revert ds r. induction s as [|c s IH]; intros ds r; simpl.
  - intros [= <- <-]. constructor.
  - destruct (is_digit c) eqn:Hc.
    + destruct (take_digits s) as [ds' r'] eqn:Hd. intros [= <- <-].
      constructor; [apply is_digit_bounds in Hc; cbv beta; lia | by eapply IH].
    + intros [= <- <-]. constructor.
Qed.

Lemma match_frac_ascii s fr r : match_frac s = (fr, r) → ascii_text fr.
Proof.
  destruct s as [|c s]; simpl; [intros [= <- <-]; constructor |].
  destruct (c =? 46); [| intros [= <- <-]; constructor].
  destruct (take_digits s) as [ds r'] eqn:Hd.
  pose proof (take_digits_ascii _ _ _ Hd) as Ha.
  destruct ds; intros [= <- <-]; [constructor |].
  constructor; [cbv beta; lia | done].
Qed.

Lemma match_exp_ascii s ex r : match_exp s = (ex, r) → ascii_text ex.
Proof.
  destruct s as [|e s]; cbn [match_exp]; [intros [= <- <-]; constructor |].
  destruct ((e =? 101) || (e =? 69)) eqn:He; [| intros [= <- <-]; constructor].
  assert (e < 128).
  { apply orb_true_iff in He as [He | He]; apply N.eqb_eq in He; lia. }
  destruct s as [|c s].
  - cbn. intros [= <- <-]. constructor.
  - destruct ((c =? 43) || (c =? 45)) eqn:Hc.
    + assert (c < 128).
      { apply orb_true_iff in Hc as [Hc | Hc]; apply N.eqb_eq in Hc; lia. }
      destruct (take_digits s) as [ds r'] eqn:Hd.
      pose proof (take_digits_ascii _ _ _ Hd) as Ha.
      destruct ds; intros [= <- <-]; [constructor |].
      cbn [app]. do 2 (constructor; [done |]). done.
    + destruct (take_digits (c :: s)) as [ds r'] eqn:Hd.
      pose proof (take_digits_ascii _ _ _ Hd) as Ha.
      destruct ds; intros [= <- <-]; [constructor |].
      constructor; [cbv beta; lia | done].
Qed.

Lemma match_unsigned_float_ascii neg s lit r :
  match_unsigned neg s = Some (PFloat (FNum lit), r) → ascii_text lit.
Proof.
  destruct s as [|d s]; [done |]. cbn [match_unsigned].
  destruct (is_digit d) eqn:Hd; [| done].
  apply is_digit_bounds in Hd.
  destruct (if d =? 48 then _ else _) as [ip r1] eqn:Hi.
  assert (Hip : ascii_text ip).
  { destruct (d =? 48).
    - injection Hi as <- <-. repeat constructor; cbv beta; lia.
    - destruct (take_digits s) as [ds r0] eqn:Hds. injection Hi as <- <-.
      constructor; [cbv beta; lia | by eapply take_digits_ascii]. }
  destruct (match_frac r1) as [fr r2] eqn:Hf.
  destruct (match_exp r2) as [ex r3] eqn:He.
  pose proof (match_frac_ascii _ _ _ Hf). pose proof (match_exp_ascii _ _ _ He).
  assert (ascii_text (if neg then [45] else [])).
  { destruct neg; repeat constructor; cbv beta; lia. }
  assert (Hall : ascii_text ((if neg then [45] else []) ++ ip ++ fr ++ ex))
    by (repeat apply ascii_text_app; done).
  destruct fr, ex; try (intros [= <- <-]; exact Hall).
  destruct (int_of_text neg ip); intros [=].
Qed.

Lemma match_number_float_ascii s lit r :
  match_number s = Some (PFloat (FNum lit), r) → ascii_text lit.
Proof.
  destruct s as [|c s]; [done |]. cbn [match_number].
  destruct (c =? 45); apply match_unsigned_float_ascii.
Qed.

(** A number starts with a minus sign or a digit. *)
Lemma match_number_head s v r :
  match_number s = Some (v, r) →
  ∃ c s', s = c :: s' ∧ (c = 45 ∨ is_digit c = true).
Proof.
  destruct s as [|c s]; [done |]. cbn [match_number]. intros H.
  exists c, s. split; [done |].
  destruct (N.eqb_spec c 45); [by left | right].
  cbn [match_unsigned] in H. by destruct (is_digit c).
Qed.

Lemma digit_value_start c : c = 45 ∨ is_digit c = true → value_start c.
Proof.
  intros [-> | Hd]; [by repeat split |].
  apply is_digit_bounds in Hd. unfold value_start, is_ws.
  rewrite !orb_false_iff. repeat split; apply N.eqb_neq; lia.
Qed.

Lemma dumps_head v :
  valid v = true → ∃ c tl, text v = c :: tl ∧ value_start c.
Proof.
  destruct v as [| [|] | z | [lit | [|] |] | s | l | d]; cbn [valid valid_float text];
    intros Hv; try (eexists _, _; split; [reflexivity | by repeat split]);
    try discriminate.
  - apply Nat.leb_le in Hv.
    destruct (match_number_head _ _ _ (match_number_int_text z Hv)) as (c & s' & -> & Hc).
    eexists _, _. split; [done | by apply digit_value_start].
  - apply valid_float_num in Hv.
    destruct (match_number_head _ _ _ Hv) as (c & s' & -> & Hc).
    eexists _, _. split; [done | by apply digit_value_start].
Qed.

Lemma skip_ws_start c s : value_start c → skip_ws (c :: s) = c :: s.
Proof. intros (Hws & _). simpl. by rewrite Hws. Qed.

Lemma skip_ws_dumps v rest : valid v = true → skip_ws (text v ++ rest) = text v ++ rest.
Proof.
  intros Hv. destruct (dumps_head v Hv) as (c & tl & -> & Hc).
  by apply skip_ws_start.
Qed.

Lemma scan_once_number fuel depth s v rest :
  match_number s = Some (v, []) → delimited rest →
  scan_once (S fuel) depth (s ++ rest) = Some (v, rest).
Proof.
  intros Hm Hrest.
  pose proof (match_number_app _ _ _ _ Hm Hrest) as Happ.
  destruct (match_number_head _ _ _ Hm) as (c & s' & -> & Hc).
  cbn [scan_once app] in *.
  assert (Hne : (c =? 34) = false ∧ (c =? 123) = false ∧ (c =? 91) = false
                ∧ (110 =? c) = false ∧ (116 =? c) = false ∧ (102 =? c) = false).
  { destruct Hc as [-> | Hd]; [by repeat split |].
    apply is_digit_bounds in Hd. repeat split; apply N.eqb_neq; lia. }
  destruct Hne as (-> & -> & -> & Hn & Ht & Hf).
  unfold scan_atom.
  change (str "null") with [110; 117; 108; 108].
  change (str "true") with [116; 114; 117; 101].
  change (str "false") with [102; 97; 108; 115; 101].
  cbn [strip_prefix]. by rewrite Hn, Ht, Hf, Happ.
Qed.

Lemma skip_ws_space s : skip_ws (32 :: s) = skip_ws s.
Proof. reflexivity. Qed.

Lemma skip_ws_delimiter c s : delimiter c = true → skip_ws (c :: s) = c :: s.
Proof. intros H. delim_cases H; reflexivity. Qed.

Lemma skip_ws_colon s : skip_ws (58 :: s) = 58 :: s.
Proof. reflexivity. Qed.

Lemma dumps_list l : text (PList l) = 91 :: join sep (List.map text l) ++ [93].
Proof. reflexivity. Qed.

Lemma dumps_dict d : text (PDict d) = 123 :: join sep (List.map item_text d) ++ [125].
Proof. reflexivity. Qed.

Lemma join_cons2 p q ps : join sep (p :: q :: ps) = p ++ 44 :: 32 :: join sep (q :: ps).
Proof. reflexivity. Qed.

Lemma length_join_cons p q ps :
  (length (join sep (q :: ps)) < length (join sep (p :: q :: ps)))%nat
  ∧ (length p < length (join sep (p :: q :: ps)))%nat.
Proof. rewrite join_cons2, length_app. cbn [length]. lia. Qed.

Lemma nesting_list l depth :
  (nesting (PList l) ≤ S depth)%nat → Forall (λ x, (nesting x ≤ depth)%nat) l.
Proof.
  cbn [nesting]. intros H. apply le_S_n in H.
  induction l as [|x l IH]; [constructor |].
  cbn [foldr] in H. constructor; [lia | apply IH; lia].
Qed.

Lemma nesting_dict d depth :
  (nesting (PDict d) ≤ S depth)%nat → Forall (λ kv, (nesting kv.2 ≤ depth)%nat) d.
Proof.
  cbn [nesting]. intros H. apply le_S_n in H.
  induction d as [|kv d IH]; [constructor |].
  cbn [foldr] in H. constructor; [lia | apply IH; lia].
Qed.

Lemma array_items_join l fuel depth rest :
  l ≠ [] → Forall reads_back l → forallb valid l = true →
  Forall (λ x, (nesting x ≤ depth)%nat) l →
  (S (length (join sep (List.map text l))) < fuel)%nat →
  array_items fuel depth (join sep (List.map text l) ++ 93 :: rest) = Some (l, rest).
Proof.
  intros Hne Hall. revert fuel. induction Hall as [|x l Hx Hall IH];
    intros fuel Hv Hdepth Hfuel; [done |].
  cbn [forallb] in Hv. apply andb_true_iff in Hv as [Hvx Hvl].
  apply Forall_cons in Hdepth as [Hnx Hnl].
  destruct fuel as [|fuel]; [lia |].
  destruct l as [|y l].
  - cbn [List.map join] in *. cbn [array_items].
    rewrite (Hx Hvx) by first [lia | reflexivity | done]. reflexivity.
  - cbn [List.map] in *. rewrite join_cons2, <- app_assoc. cbn [app array_items].
    pose proof (length_join_cons (text x) (text y) (List.map text l)) as [H1 H2].
    rewrite (Hx Hvx) by first [lia | reflexivity | done].
    rewrite skip_ws_delimiter by reflexivity.
    change (44 =? 93) with false. change (44 =? 44) with true. cbn iota.
    rewrite skip_ws_space.
    assert (Hvy : valid y = true) by (cbn [forallb] in Hvl; by apply andb_true_iff in Hvl as []).
    destruct (dumps_head y Hvy) as (c & tl & Hy & Hc).
    assert (Hskip : ∀ t, skip_ws (join sep (text y :: List.map text l) ++ t)
                         = join sep (text y :: List.map text l) ++ t).
    { intros t. destruct l; cbn [List.map join]; rewrite Hy;
        rewrite <- ?app_comm_cons; by apply skip_ws_start. }
    rewrite Hskip, IH by first [lia | reflexivity | done]. reflexivity.
Qed.

Lemma item_text_app kv t :
  item_text kv ++ t = 34 :: flat_map escape_char kv.1 ++ 34 :: 58 :: 32 :: text kv.2 ++ t.
Proof.
  unfold item_text, encode_basestring_ascii. cbn [app].
  rewrite <- !app_assoc. reflexivity.
Qed.

Lemma join_items d rest :
  d ≠ [] → join sep (List.map item_text d) ++ 125 :: rest = 34 :: items_body d rest.
Proof.
  induction d as [|kv d IH]; intros Hne; [done |].
  destruct d as [|kv' d].
  - cbn [List.map join items_body]. apply item_text_app.
  - cbn [List.map] in *. rewrite join_cons2, <- app_assoc. cbn [app].
    rewrite IH by done. cbn [items_body]. apply item_text_app.
Qed.

Lemma object_items_body d fuel depth rest :
  d ≠ [] → Forall (λ kv, reads_back kv.2) d →
  forallb (λ kv, forallb scalar_value kv.1 && valid kv.2) d = true →
  Forall (λ kv, (nesting kv.2 ≤ depth)%nat) d →
  (S (length (join sep (List.map item_text d))) < fuel)%nat →
  object_items fuel depth (items_body d rest) = Some (d, rest).
Proof.
  intros Hne Hall. revert fuel. induction Hall as [|[k x] d Hx Hall IH];
    intros fuel Hv Hdepth Hfuel; [done |].
  cbn [forallb fst snd] in Hv, Hx. apply andb_true_iff in Hv as [Hvkx Hvd].
  apply andb_true_iff in Hvkx as [Hvk Hvx].
  apply Forall_cons in Hdepth as [Hnx Hnd]. cbn [snd] in Hnx.
  destruct fuel as [|fuel]; [lia |].
  assert (Hlen : (length (text x) < length (item_text (k, x)))%nat).
  { unfold item_text. change (str ": ") with [58; 32].
    rewrite !length_app. cbn [snd length]. lia. }
  cbn [items_body fst snd object_items]. rewrite scanstring_escaped by done.
  rewrite skip_ws_colon. change (58 =? 58) with true. cbn iota.
  rewrite skip_ws_space.
  destruct d as [|kv d].
  - cbn [List.map join] in Hfuel.
    rewrite skip_ws_dumps by done.
    rewrite (Hx Hvx) by first [lia | reflexivity | done].
    reflexivity.
  - cbn [List.map] in Hfuel, IH.
    pose proof (length_join_cons (item_text (k, x)) (item_text kv)
                  (List.map item_text d)) as [H1 H2].
    rewrite skip_ws_dumps by done.
    rewrite (Hx Hvx) by first [lia | reflexivity | done].
    rewrite skip_ws_delimiter by reflexivity.
    change (44 =? 125) with false. change (44 =? 44) with true. cbn iota.
    rewrite skip_ws_space. cbn [skip_ws]. change (is_ws 34) with false. cbn iota.
    change (34 =? 34) with true. cbn iota.
    rewrite IH by first [lia | done]. reflexivity.
Qed.

(** [dict(pairs)] keeps pairs with distinct keys as they are. *)
Lemma dict_set_fresh d k v : k ∉ d.*1 → dict_set d k v = d ++ [(k, v)].
Proof.
  induction d as [|[k' v'] d IH]; intros Hk; [done |].
  cbn [dict_set]. cbn [fmap list_fmap fst] in Hk.
  apply not_elem_of_cons in Hk as [Hne Hk].
  rewrite decide_False by done. by rewrite IH.
Qed.

Lemma dict_of_pairs_acc pairs acc :
  NoDup (acc ++ pairs).*1 →
  fold_left (λ d kv, dict_set d kv.1 kv.2) pairs acc = acc ++ pairs.
Proof.
  revert acc. induction pairs as [|[k v] pairs IH]; intros acc Hnd.
  - by rewrite app_nil_r.
  - cbn [fold_left fst snd].
    rewrite dict_set_fresh.
    + rewrite IH; rewrite <- app_assoc; done.
    + rewrite fmap_app in Hnd. apply NoDup_app in Hnd as (_ & Hdisj & _).
      intros Hin. apply (Hdisj k Hin). left.
Qed.

Lemma dict_of_pairs_nodup d : NoDup d.*1 → dict_of_pairs d = d.
Proof. intros Hnd. unfold dict_of_pairs. by rewrite dict_of_pairs_acc. Qed.

Lemma reads_back_all v : reads_back v.
Proof.
  induction v as [| b | z | f | s | l IH | d IH] using pyval_nested_ind;
    intros Hv fuel depth rest Hfuel Hdepth Hrest; (destruct fuel as [|fuel]; [lia |]).
  - reflexivity.
  - destruct b; reflexivity.
  - cbn [valid] in Hv. apply Nat.leb_le in Hv.
    by apply scan_once_number; [apply match_number_int_text |].
  - destruct f as [lit | [|] |]; try discriminate; try reflexivity.
    apply scan_once_number; [by apply valid_float_num | done].
  - cbn [valid] in Hv. cbn [text]. unfold encode_basestring_ascii.
    cbn [app scan_once]. change (34 =? 34) with true. cbn iota.
    rewrite <- app_assoc. cbn [app]. by rewrite scanstring_escaped.
  - destruct depth as [|depth]; [cbn [nesting] in Hdepth; lia |].
    apply nesting_list in Hdepth.
    cbn [valid] in Hv. rewrite dumps_list in *. cbn [app scan_once].
    change (91 =? 34) with false. change (91 =? 123) with false.
    change (91 =? 91) with true. cbn iota.
    rewrite <- app_assoc. cbn [app].
    destruct l as [|x l].
    + reflexivity.
    + assert (Hvx : valid x = true) by (cbn [forallb] in Hv; by apply andb_true_iff in Hv as []).
      destruct (dumps_head x Hvx) as (c & tl & Hx & Hws & H93 & H125).
      assert (Hskip : skip_ws (join sep (List.map text (x :: l)) ++ 93 :: rest)
                      = c :: tl ++ match l with
                                   | [] => 93 :: rest
                                   | _ => 44 :: 32 :: join sep (List.map text l) ++ 93 :: rest
                                   end).
      { destruct l; cbn [List.map join]; rewrite Hx.
        - by apply skip_ws_start.
        - change (str ", ") with [44; 32]. rewrite <- !app_assoc.
          cbn [app]. by apply skip_ws_start. }
      pose proof (array_items_join (x :: l) fuel depth rest ltac:(done) IH Hv Hdepth)
        as Harr.
      rewrite Hskip in *. rewrite H93.
      assert (Htext : c :: tl ++ match l with
                                 | [] => 93 :: rest
                                 | _ => 44 :: 32 :: join sep (List.map text l) ++ 93 :: rest
                                 end
                      = join sep (List.map text (x :: l)) ++ 93 :: rest).
      { destruct l; cbn [List.map join]; rewrite Hx; [done |].
        change (str ", ") with [44; 32]. rewrite <- !app_assoc. reflexivity. }
      rewrite Htext, Harr; [done |].
      cbn [length] in Hfuel. rewrite length_app in Hfuel. cbn [length] in Hfuel. lia.
  - destruct depth as [|depth]; [cbn [nesting] in Hdepth; lia |].
    apply nesting_dict in Hdepth.
    cbn [valid] in Hv. apply andb_true_iff in Hv as [Hv Hnd].
    apply bool_decide_eq_true in Hnd.
    rewrite dumps_dict in *. cbn [app scan_once].
    change (123 =? 34) with false. change (123 =? 123) with true. cbn iota.
    rewrite <- app_assoc. cbn [app].
    destruct d as [|kv d].
    + reflexivity.
    + rewrite join_items by done.
      cbn [skip_ws]. change (is_ws 34) with false. cbn iota.
      change (34 =? 125) with false. change (34 =? 34) with true. cbn iota.
      rewrite (object_items_body _ _ depth); try done.
      * by rewrite dict_of_pairs_nodup.
      * cbn [length] in Hfuel. rewrite length_app in Hfuel. cbn [length] in Hfuel. lia.
Qed.

Lemma loads_dumps depth v :
  valid v = true → (nesting v ≤ depth)%nat → loads depth (text v) = Some v.
Proof.
  intros Hv Hdepth. unfold loads.
  pose proof (skip_ws_dumps v [] Hv) as Hs. rewrite app_nil_r in Hs. rewrite Hs.
  pose proof (reads_back_all v Hv (S (length (text v))) depth [] ltac:(lia) Hdepth I)
    as Hr.
  rewrite app_nil_r in Hr. by rewrite Hr.
Qed.

(** [dumps] writes the text of a valid value nested no deeper than the
    recursion limit allows. *)
Lemma dumps_text depth v :
  valid v = true → (nesting v ≤ depth)%nat → dumps depth v = Some (text v).
Proof.
  revert depth.
  induction v as [| b | z | f | s | l IH | d IH] using pyval_nested_ind;
    intros depth Hv Hdepth; try reflexivity.
  - by destruct b.
  - cbn [valid] in Hv. apply Nat.leb_le in Hv. by apply int_repr_text.
  - destruct depth as [|depth]; [cbn [nesting] in Hdepth; lia |].
    apply nesting_list in Hdepth. cbn [valid] in Hv. cbn [dumps text].
    assert (Hitems : (fix items (l : list pyval) : option (list pystr) :=
                        match l with
                        | [] => Some []
                        | x :: l' =>
                            match dumps depth x with
                            | Some text =>
                                match items l' with
                                | Some texts => Some (text :: texts)
                                | None => None
                                end
                            | None => None
                            end
                        end) l = Some (List.map text l)).
    { induction l as [|x l IHl]; [done |].
      cbn [forallb] in Hv. apply andb_true_iff in Hv as [Hvx Hvl].
      apply Forall_cons in Hdepth as [Hnx Hnl]. apply Forall_cons in IH as [IHx IH].
      rewrite (IHx depth Hvx Hnx), (IHl IH Hvl Hnl). reflexivity. }
    by rewrite Hitems.
  - destruct depth as [|depth]; [cbn [nesting] in Hdepth; lia |].
    apply nesting_dict in Hdepth. cbn [valid] in Hv.
    apply andb_true_iff in Hv as [Hv _]. cbn [dumps text].
    assert (Hitems : (fix items (d : list (pystr * pyval)) : option (list pystr) :=
                        match d with
                        | [] => Some []
                        | kv :: d' =>
                            match dumps depth kv.2 with
                            | Some text =>
                                match items d' with
                                | Some texts =>
                                    Some ((encode_basestring_ascii kv.1 ++ str ": " ++ text)
                                            :: texts)
                                | None => None
                                end
                            | None => None
                            end
                        end) d
                     = Some (List.map (λ kv, encode_basestring_ascii kv.1 ++ str ": "
                                               ++ text kv.2) d)).
    { induction d as [|kv d IHd]; [done |].
      cbn [forallb] in Hv. apply andb_true_iff in Hv as [Hvx Hvd].
      apply andb_true_iff in Hvx as [_ Hvx].
      apply Forall_cons in Hdepth as [Hnx Hnd]. apply Forall_cons in IH as [IHx IH].
      rewrite (IHx depth Hvx Hnx), (IHd IH Hvd Hnd). reflexivity. }
    by rewrite Hitems.
Qed.

Lemma hex_digit_ascii x : hex_digit (x mod 16) < 128.
Proof.
  pose proof (N.mod_lt x 16 ltac:(lia)). unfold hex_digit.
  destruct (N.ltb_spec (x mod 16) 10); lia.
Qed.

Lemma u_escape_ascii n : ascii_text (u_escape n).
Proof.
  unfold u_escape, hex4.
  repeat (constructor; [cbv beta; first [lia | apply hex_digit_ascii] |]).
  constructor.
Qed.

Lemma escape_char_ascii c : ascii_text (escape_char c).
Proof.
  unfold escape_char.
  repeat (match goal with
          | |- context [if ?b then _ else _] => destruct b eqn:?
          end;
          [try (repeat constructor; cbv beta; lia) |]).
  - constructor; [| constructor]. cbv beta.
    match goal with H : _ && _ = true |- _ =>
      apply andb_true_iff in H as [_ H]; apply N.leb_le in H end. lia.
  - apply u_escape_ascii.
  - apply ascii_text_app; apply u_escape_ascii.
Qed.

Lemma encode_basestring_ascii_ascii s : ascii_text (encode_basestring_ascii s).
Proof.
  unfold encode_basestring_ascii. constructor; [cbv beta; lia |].
  apply ascii_text_app; [| repeat constructor; cbv beta; lia].
  induction s as [|c s IH]; [constructor |].
  cbn [flat_map]. apply ascii_text_app; [apply escape_char_ascii | done].
Qed.

Lemma uint_chars_ascii u : ascii_text (uint_chars u).
Proof. induction u; cbn [uint_chars]; constructor; cbv beta; (lia || done). Qed.

Lemma join_ascii parts : Forall ascii_text parts → ascii_text (join sep parts).
Proof.
  induction 1 as [|p ps Hp Hps IH]; [constructor |].
  destruct ps as [|q ps]; [done |].
  rewrite join_cons2. apply ascii_text_app; [done |].
  do 2 (constructor; [cbv beta; lia |]). done.
Qed.

Lemma dumps_ascii v : valid v = true → ascii_text (text v).
Proof.
  induction v as [| b | z | f | s | l IH | d IH] using pyval_nested_ind; intros Hv.
  - repeat constructor; cbv beta; lia.
  - destruct b; repeat constructor; cbv beta; lia.
  - destruct z; cbn [text int_text]; [repeat constructor; cbv beta; lia | |].
    + apply uint_chars_ascii.
    + constructor; [cbv beta; lia | apply uint_chars_ascii].
  - destruct f as [lit | [|] |]; try discriminate.
    + apply valid_float_num in Hv. by apply match_number_float_ascii in Hv.
    + repeat constructor; cbv beta; lia.
    + repeat constructor; cbv beta; lia.
  - apply encode_basestring_ascii_ascii.
  - rewrite dumps_list. constructor; [cbv beta; lia |].
    apply ascii_text_app; [| repeat constructor; cbv beta; lia].
    apply join_ascii. cbn [valid] in Hv. rewrite forallb_forall in Hv.
    apply Forall_fmap, Forall_forall. intros x Hx.
    rewrite Forall_forall in IH. apply IH; [done |].
    apply Hv. by apply list_elem_of_In.
  - rewrite dumps_dict. constructor; [cbv beta; lia |].
    apply ascii_text_app; [| repeat constructor; cbv beta; lia].
    apply join_ascii. cbn [valid] in Hv. apply andb_true_iff in Hv as [Hv _].
    rewrite forallb_forall in Hv.
    apply Forall_fmap, Forall_forall. intros kv Hkv.
    rewrite Forall_forall in IH. unfold item_text.
    apply ascii_text_app; [apply encode_basestring_ascii_ascii |].
    apply ascii_text_app; [repeat constructor; cbv beta; lia |].
    apply IH; [done |].
    specialize (Hv kv ltac:(by apply list_elem_of_In)).
    by apply andb_true_iff in Hv as [].
Qed.

Lemma utf8_encode_ascii s : ascii_text s → Utf8.encode s = Some s.
Proof.
  induction 1 as [|c s Hc Hs IH]; [done |].
  cbn [Utf8.encode]. unfold Utf8.encode_char.
  destruct (N.ltb_spec c 128); [| lia]. by rewrite IH.
Qed.

Lemma utf8_decode_ascii s : ascii_text s → Utf8.decode s = Some s.
Proof.
  induction 1 as [|c s Hc Hs IH]; [done |].
  cbn [Utf8.decode]. destruct (N.ltb_spec c 128); [| lia]. by rewrite IH.
Qed.

End JsonFacts.

(** A valid announcement sent as JSON reaches its handler: the listener's
    turn on the datagram is the handler's run on the decoded dict, what the
    handler raises being caught. *)
Lemma listener_turn_announcement e e' now fields addr w :
  JsonSpec.valid (PDict fields) = true →
  (JsonSpec.nesting (PDict fields) ≤ decoder_depth e)%nat →
  dict_lookup fields (str "type") = Some (PStr (str "drone_announce")) →
  _discovery_listener_turn e e' now (inr (JsonSpec.text (PDict fields), addr)) w
  = serve (Announce now fields addr) {| ctl := ctl w; io := io w ++ [IOServerRecvfrom] |}.
Proof.
  intros Hv Hdepth Hty. unfold _discovery_listener_turn, decode_message.
  pose proof (JsonFacts.dumps_ascii _ Hv) as Ha.
  run_m. cbn [fst snd].
  rewrite (JsonFacts.utf8_decode_ascii _ Ha), (JsonFacts.loads_dumps _ _ Hv Hdepth).
  unfold py_get, dict_get. rewrite Hty. run_m.
  rewrite decide_True by done. reflexivity.
Qed.


(** C2.  For every valid message [m] (the [command_msg] dict of
    [send_command_to_drone], like any dict of strings, ints of at most 4300
    digits, floats, booleans, None, lists and dicts) that is nested no
    deeper than the recursion limit leaves to [json.dumps] on the sending
    side and to [json.loads] on the receiving side, encoding does not fail,
    and decoding the bytes that [json.dumps(m).encode()] produces, as
    [json.loads(data.decode())] does on the receiving side, yields [m]
    again. *)
Theorem message_codec_round_trip e e' m w w' :
  JsonSpec.valid m = true →
  (JsonSpec.nesting m ≤ encoder_depth e)%nat →
  (JsonSpec.nesting m ≤ decoder_depth e')%nat →
  ∃ data,
    encode_message e m w = (Return data, w)
    ∧ decode_message e' data w' = (Return m, w').
Proof.
  intros Hv Henc Hdec. exists (JsonSpec.text m).
  pose proof (JsonFacts.dumps_ascii m Hv) as Ha.
  unfold encode_message, decode_message.
  rewrite (JsonFacts.dumps_text _ _ Hv Henc).
  rewrite (JsonFacts.utf8_encode_ascii _ Ha), (JsonFacts.utf8_decode_ascii _ Ha).
  by rewrite (JsonFacts.loads_dumps _ _ Hv Hdec).
Qed.

Lemma message_codec_round_trip_witness :
  ∃ data,
    encode_message silent_env takeoff_message empty_world = (Return data, empty_world)
    ∧ decode_message silent_env data empty_world = (Return takeoff_message, empty_world).
Proof.
  apply message_codec_round_trip; vm_compute; (reflexivity || lia).
Defined.

Example takeoff_message_text :
  Json.dumps (encoder_depth silent_env) takeoff_message
  = Some (str "{" ++ quoted "type" ++ str ": " ++ quoted "command" ++ str ", "
          ++ quoted "command" ++ str ": " ++ quoted "takeoff" ++ str ", "
          ++ quoted "target_drone" ++ str ": " ++ quoted "drone-1" ++ str ", "
          ++ quoted "params" ++ str ": {" ++ quoted "altitude" ++ str ": 15.0}, "
          ++ quoted "timestamp" ++ str ": " ++ quoted "2024-01-01T00:00:00" ++ str "}").
Proof. reflexivity. Qed.

(** Outside the valid messages the law can fail: two surrogate code points
    in a row are written as two escapes and read back as one character. *)
Example surrogate_halves_read_back_joined :
  Json.dumps 0 (PStr [55357; 56832]) ≫= Json.loads 0 = Some (PStr [128512]).
Proof. reflexivity. Qed.

(** An int of 4301 digits is refused by [json.dumps], and its text by
    [json.loads]; a list is refused where the recursion limit leaves no
    depth. *)
Example int_past_the_digit_limit :
  Json.dumps 10 (PInt (10 ^ 4300)) = None
  ∧ Json.loads 10 (JsonSpec.text (PInt (10 ^ 4300))) = None
  ∧ Json.dumps 1 (PList [PList []]) = None
  ∧ Json.loads 1 (str "[[]]") = None.
Proof. repeat split; vm_compute; reflexivity. Qed.

(** * Further properties of the controller *)

Lemma add_io_nil w : add_io w [] = w.
Proof. destruct w. unfold add_io. cbn. by rewrite app_nil_r. Qed.

Lemma add_io_add_io w evs evs' : add_io (add_io w evs) evs' = add_io w (evs ++ evs').
Proof. unfold add_io. cbn. by rewrite app_assoc. Qed.

Lemma send_command_absent e drone_id command params w k :
  dict_key drone_id = Hashable k →
  discovered_drones (ctl w) !! k = None →
  send_command_to_drone e drone_id command params w
  = (Return (failure (str "Drone not found")), w).
Proof.
  intros Hk Hnone. unfold send_command_to_drone. run_m. rewrite Hk. run_m.
  by rewrite Hnone.
Qed.

Lemma send_command_present e drone_id command params w k info :
  dict_key drone_id = Hashable k →
  discovered_drones (ctl w) !! k = Some info →
  send_command_to_drone e drone_id command params w
  = (Return (exchange e info (command_message e drone_id command params)).1,
     add_io w (exchange e info (command_message e drone_id command params)).2).
Proof.
  intros Hk Hin.
  unfold send_command_to_drone, encode_message, decode_message, exchange, add_io.
  run_m. rewrite Hk. run_m. rewrite Hin.
  destruct (socket_error e) as [x1|]; cbn [ctl io fst snd]; [done |].
  destruct (Json.dumps _ _) as [sent_text|]; cbn [ctl io fst snd];
    [| by rewrite <- app_assoc].
  destruct (Utf8.encode _) as [data|]; cbn [ctl io fst snd];
    [| by rewrite <- app_assoc].
  destruct (sendto_error e data _ _) as [x2|]; cbn [ctl io fst snd];
    [by rewrite <- !app_assoc |].
  destruct (recvfrom_result e) as [x3|reply]; cbn [ctl io fst snd];
    [by rewrite <- !app_assoc |].
  destruct (Utf8.decode reply) as [text|]; cbn [ctl io fst snd];
    [| by rewrite <- !app_assoc].
  destruct (Json.loads _ text) as [response|]; cbn [ctl io fst snd];
    [| by rewrite <- !app_assoc].
  unfold py_get. destruct response; run_m; cbn [fst snd]; by rewrite <- !app_assoc.
Qed.

Lemma send_command_ctl e drone_id command params w :
  ctl (send_command_to_drone e drone_id command params w).2 = ctl w.
Proof.
  destruct (dict_key drone_id) as [k | x |] eqn:Hk.
  - destruct (discovered_drones (ctl w) !! k) as [info|] eqn:Hin.
    + by rewrite (send_command_present _ _ _ _ _ k info).
    + by rewrite (send_command_absent _ _ _ _ _ k).
  - unfold send_command_to_drone. run_m. by rewrite Hk.
  - unfold send_command_to_drone. run_m. by rewrite Hk.
Qed.

(** X1.  [send_command_to_drone] never changes the controller: whatever the
    identifier, the command, the parameters and the network, the registry,
    the running flag and the port are after the call what they were before
    it. *)
Theorem send_command_keeps_controller e drone_id command params w :
  ctl (send_command_to_drone e drone_id command params w).2 = ctl w.
Proof. apply send_command_ctl. Qed.

(** X2.  A command to a registered drone, once its socket is created and
    its text encoded, sends exactly one datagram: the JSON text of the
    command message, to the address and the port of the drone's record.
    What follows is nothing (the send failed), the wait for the reply, or
    the wait and the closing of the socket; the socket is closed only when a
    reply has arrived and been decoded, and is left open otherwise. *)
Theorem send_command_sends_one_datagram e drone_id command params w k info data :
  dict_key drone_id = Hashable k →
  discovered_drones (ctl w) !! k = Some info →
  socket_error e = None →
  message_bytes e (command_message e drone_id command params) = Some data →
  ∃ rest,
    io (send_command_to_drone e drone_id command params w).2
    = io w ++ [IOSocket; IOSettimeout; IOSendto data (address info) (port info)]
        ++ rest
    ∧ (rest = [] ∨ rest = [IORecvfrom] ∨ rest = [IORecvfrom; IOClose])
    ∧ (IOClose ∈ rest ↔
       sendto_error e data (address info) (port info) = None
       ∧ ∃ reply text v, recvfrom_result e = inr reply
                         ∧ Utf8.decode reply = Some text
                         ∧ Json.loads (decoder_depth e) text = Some v).
Proof.
  intros Hk Hin Hsock Henc.
  rewrite (send_command_present _ _ _ _ _ k info) by done.
  unfold message_bytes in Henc. unfold exchange, add_io. rewrite Hsock.
  destruct (Json.dumps _ _) as [sent_text|]; [| done]. rewrite Henc. cbn [io snd].
  destruct (sendto_error e data _ _) as [x2|] eqn:Hsend; cbn [snd].
  { exists []. split; [done |]. split; [auto |]. split.
    - intros H. by apply elem_of_nil in H.
    - intros [? _]. done. }
  destruct (recvfrom_result e) as [x3|reply] eqn:Hrecv; cbn [snd].
  { exists [IORecvfrom]. split; [done |]. split; [auto |]. split.
    - intros H. apply list_elem_of_singleton in H. discriminate.
    - intros [_ (? & ? & ? & ? & _)]. done. }
  destruct (Utf8.decode reply) as [text|] eqn:Hdec; cbn [snd].
  2: { exists [IORecvfrom]. split; [done |]. split; [auto |]. split.
       - intros H. apply list_elem_of_singleton in H. discriminate.
       - intros [_ (? & ? & ? & [= <-] & ? & _)]. congruence. }
  destruct (Json.loads _ text) as [v|] eqn:Hloads; cbn [snd].
  2: { exists [IORecvfrom]. split; [done |]. split; [auto |]. split.
       - intros H. apply list_elem_of_singleton in H. discriminate.
       - intros [_ (? & ? & ? & [= <-] & ? & ?)]. congruence. }
  exists [IORecvfrom; IOClose].
  split.
  - by destruct v.
  - split; [auto |]. split; [eauto 10 |]. intros _.
    apply elem_of_cons. right. apply elem_of_cons. by left.
Qed.

Lemma send_command_to_registered_witness_data :
  message_bytes silent_env takeoff_message = Some (JsonSpec.text takeoff_message).
Proof. vm_compute. reflexivity. Qed.

Lemma send_command_sends_one_datagram_witness :
  ∃ rest,
    io (send_command_to_drone silent_env (PStr (str "drone-1")) (PStr (str "takeoff"))
          (PDict [(str "altitude", PFloat (FNum (str "15.0")))]) world_1).2
    = io world_1
        ++ [IOSocket; IOSettimeout;
            IOSendto (JsonSpec.text takeoff_message) (str "10.0.0.7") (PInt 14550)]
        ++ rest.
Proof.
  destruct (send_command_sends_one_datagram silent_env (PStr (str "drone-1"))
              (PStr (str "takeoff"))
              (PDict [(str "altitude", PFloat (FNum (str "15.0")))]) world_1
              (KStr (str "drone-1")) (announced_record 1000 announce_1 sample_addr)
              (JsonSpec.text takeoff_message))
    as (rest & Hio & _).
  - reflexivity.
  - apply lookup_singleton_eq.
  - reflexivity.
  - exact send_command_to_registered_witness_data.
  - exists rest. exact Hio.
Defined.

(** X3.  After an announcement, a command for that drone goes to the host
    the announcement came from and to the port its payload names (14550
    when it names none), and to no other place: the only datagram the
    command adds to those already sent is that one. *)
Theorem command_goes_to_the_announcer
    now message addr e drone_id command params w k data :
  truthy (dict_get message (str "drone_id") PNone) = true →
  dict_key (dict_get message (str "drone_id") PNone) = Hashable k →
  dict_key drone_id = Hashable k →
  socket_error e = None →
  message_bytes e (command_message e drone_id command params) = Some data →
  let w' := (send_command_to_drone e drone_id command params
               (_handle_drone_announcement now message addr w).2).2 in
  IOSendto data (host addr) (dict_get message (str "port") (PInt 14550)) ∈ io w'
  ∧ ∀ data' h p, IOSendto data' h p ∈ io w' →
      IOSendto data' h p ∈ io w
      ∨ (data' = data ∧ h = host addr
         ∧ p = dict_get message (str "port") (PInt 14550)).
Proof.
  intros Ht Hk Hk' Hsock Henc w'. subst w'.
  rewrite (announcement_accepted _ _ _ _ k) by done. cbn [snd].
  rewrite (send_command_present _ _ _ _ _ k (announced_record now message addr))
    by (done || apply lookup_insert_eq).
  unfold message_bytes in Henc. unfold exchange, add_io. rewrite Hsock.
  destruct (Json.dumps _ _) as [sent_text|]; [| done]. rewrite Henc.
  cbn [snd io ctl address port announced_record].
  set (sent := IOSendto data (host addr) (dict_get message (str "port") (PInt 14550))).
  assert (Hin : ∀ tail, sent ∈ io w ++ [IOSocket; IOSettimeout; sent] ++ tail).
  { intros tail. apply elem_of_app. right. apply elem_of_app. left.
    do 2 (apply elem_of_cons; right). apply elem_of_cons. by left. }
  assert (Hout : ∀ tail data' h p,
            (∀ ev, ev ∈ tail → ev = IORecvfrom ∨ ev = IOClose) →
            IOSendto data' h p ∈ io w ++ [IOSocket; IOSettimeout; sent] ++ tail →
            IOSendto data' h p ∈ io w
            ∨ (data' = data ∧ h = host addr
               ∧ p = dict_get message (str "port") (PInt 14550))).
  { intros tail data' h p Htail Hev.
    apply elem_of_app in Hev as [Hev | Hev]; [by left |].
    apply elem_of_app in Hev as [Hev | Hev].
    - apply elem_of_cons in Hev as [Heq | Hev]; [discriminate |].
      apply elem_of_cons in Hev as [Heq | Hev]; [discriminate |].
      apply list_elem_of_singleton in Hev. unfold sent in Hev.
      injection Hev as -> -> ->. auto.
    - destruct (Htail _ Hev); discriminate. }
  destruct (sendto_error e data _ _) as [x2|]; cbn [snd].
  { split; [apply (Hin []) |]. intros data' h p. apply (Hout []).
    intros ev H. by apply elem_of_nil in H. }
  assert (Hr : ∀ ev, ev ∈ [IORecvfrom] → ev = IORecvfrom ∨ ev = IOClose).
  { intros ev H. apply list_elem_of_singleton in H. auto. }
  assert (Hrc : ∀ ev, ev ∈ [IORecvfrom; IOClose] → ev = IORecvfrom ∨ ev = IOClose).
  { intros ev. rewrite !elem_of_cons, elem_of_nil. tauto. }
  destruct (recvfrom_result e) as [x3|reply]; cbn [snd].
  { split; [apply (Hin [IORecvfrom]) | intros data' h p; by apply Hout]. }
  destruct (Utf8.decode reply) as [text|]; cbn [snd].
  2: { split; [apply (Hin [IORecvfrom]) | intros data' h p; by apply Hout]. }
  destruct (Json.loads _ text) as [v|]; cbn [snd].
  2: { split; [apply (Hin [IORecvfrom]) | intros data' h p; by apply Hout]. }
  destruct v; cbn [snd];
    (split; [apply (Hin [IORecvfrom; IOClose]) | intros data' h p; by apply Hout]).
Qed.

Lemma command_goes_to_the_announcer_witness :
  IOSendto (JsonSpec.text takeoff_message) (str "10.0.0.7") (PInt 14550)
  ∈ io (send_command_to_drone silent_env (PStr (str "drone-1")) (PStr (str "takeoff"))
          (PDict [(str "altitude", PFloat (FNum (str "15.0")))])
          (_handle_drone_announcement 1000 announce_1 sample_addr empty_world).2).2.
Proof.
  apply (command_goes_to_the_announcer 1000 announce_1 sample_addr silent_env
           (PStr (str "drone-1")) (PStr (str "takeoff"))
           (PDict [(str "altitude", PFloat (FNum (str "15.0")))]) empty_world
           (KStr (str "drone-1")) (JsonSpec.text takeoff_message));
    reflexivity.
Defined.

Lemma supported_handler_is_send_command_aux s e drone_id d w :
  s ∈ supported_commands →
  ∃ handler,
    lookup_handler command_handlers s = Some handler
    ∧ handler e drone_id (PDict d) w
      = send_command_to_drone e drone_id (PStr s) (PDict d) w.
Proof.
  unfold supported_commands. rewrite !elem_of_cons, elem_of_nil.
  intros [-> | [-> | [-> | [-> | [-> | [-> | [-> | []]]]]]]];
    (eexists; split; [reflexivity | reflexivity]).
Qed.

(** X4.  The handler table is a table of names and nothing more: for each
    of the seven supported commands and any dict of parameters, the handler
    found under the name does exactly what [send_command_to_drone] does
    with that name and those parameters. *)
Theorem supported_handler_is_send_command s e drone_id d w :
  s ∈ supported_commands →
  ∃ handler,
    lookup_handler command_handlers s = Some handler
    ∧ handler e drone_id (PDict d) w
      = send_command_to_drone e drone_id (PStr s) (PDict d) w.
Proof.
  apply supported_handler_is_send_command_aux.
Qed.

Lemma supported_handler_is_send_command_witness :
  ∃ handler,
    lookup_handler command_handlers (str "takeoff") = Some handler
    ∧ handler silent_env (PStr (str "drone-1")) (PDict []) world_1
      = send_command_to_drone silent_env (PStr (str "drone-1"))
          (PStr (str "takeoff")) (PDict []) world_1.
Proof.
  apply supported_handler_is_send_command.
  unfold supported_commands. rewrite !elem_of_cons. auto.
Defined.

(** X5.  A relayed takeoff or goto_location whose parameters are not a dict
    (a null, a number, a string, a list) stops at the log line of its
    handler: [AttributeError] is raised before any socket call, so no
    command goes to the drone and no response to the sender; the controller
    is left as it was. *)
Theorem relayed_takeoff_needs_a_dict e e' message addr w s :
  s = str "takeoff" ∨ s = str "goto_location" →
  dict_get message (str "command") PNone = PStr s →
  (∀ d, dict_get message (str "params") (PDict []) ≠ PDict d) →
  ∃ msg, _handle_drone_command e e' message addr w = (Raise (AttributeError msg), w).
Proof.
  intros Hs Hcmd Hparams. unfold _handle_drone_command, find_handler.
  rewrite Hcmd.
  destruct (dict_get message (str "params") (PDict [])) as [| b | z | f | p | l | d] eqn:Hp;
    try (by destruct (Hparams d));
    destruct Hs as [-> | ->]; eexists; reflexivity.
Qed.

Lemma relayed_takeoff_needs_a_dict_witness :
  ∃ msg,
    _handle_drone_command silent_env silent_env takeoff_null_message sample_addr world_1
    = (Raise (AttributeError msg), world_1).
Proof.
  apply (relayed_takeoff_needs_a_dict _ _ _ _ _ (str "takeoff")).
  - by left.
  - reflexivity.
  - intros d. discriminate.
Defined.




(** The relayed arm for a drone that is not registered: the sender is told
    so, and nothing goes to any drone. *)
Example relayed_arm_for_missing_drone :
  _handle_drone_command silent_env silent_env arm_missing_message sample_addr world_1
  = (Return (),
     add_io world_1
       [IOServerSendto
          (JsonSpec.text (response_message silent_env (PStr (str "missing-id"))
                            (PStr (str "arm")) (failure (str "Drone not found"))))
          sample_addr]).
Proof. reflexivity. Qed.

(** X7.  A turn of the listener that brings no announcement and no command
    changes nothing: on a receive timeout or error, on bytes that are not
    UTF-8 or not JSON, on a JSON value that is not an object, and on an
    object whose [type] is neither [drone_announce] nor [command], the turn
    ends without an exception, with the controller as it was and nothing
    sent. *)
Theorem listener_ignores_other_datagrams e e' now received w :
  (∀ fields, datagram_fields (decoder_depth e) received = Some fields →
             dict_get fields (str "type") PNone ≠ PStr (str "drone_announce")
             ∧ dict_get fields (str "type") PNone ≠ PStr (str "command")) →
  _discovery_listener_turn e e' now received w
  = (Return (), add_io w [IOServerRecvfrom]).
Proof.
  intros Hother. unfold _discovery_listener_turn, decode_message, add_io.
  run_m. destruct received as [x | [data addr]]; cbn [fst snd]; [done |].
  unfold datagram_fields in Hother.
  destruct (Utf8.decode data) as [text|]; [| done].
  destruct (Json.loads _ text) as [message|]; [| done].
  unfold py_get.
  destruct message as [| b | z | f | s | l | fields]; try done.
  run_m. specialize (Hother fields eq_refl) as [Ha Hc].
  destruct (dict_get fields (str "type") PNone) as [| b | z | f | s | l | d]; try done.
  destruct (decide (s = str "drone_announce")) as [-> | _]; [done |].
  destruct (decide (s = str "command")) as [-> | _]; [done |].
  reflexivity.
Qed.

Lemma listener_ignores_other_datagrams_witness :
  _discovery_listener_turn silent_env silent_env 1000
    (inr (JsonSpec.text ping_message, sample_addr)) world_1
  = (Return (), add_io world_1 [IOServerRecvfrom]).
Proof.
  apply listener_ignores_other_datagrams.
  intros fields Hf. vm_compute in Hf. injection Hf as <-.
  split; discriminate.
Defined.



(** X9.  An announcement changes nothing but the record of its own drone:
    every other record stays as it was, no record is removed, no socket
    call is made, and the running flag, the port and the socket are
    untouched.  When the identifier cannot be hashed (a list or a dict)
    nothing at all is changed.  The identifier is any value but a float. *)
Theorem announcement_touches_one_record now message addr w :
  dict_key (dict_get message (str "drone_id") PNone) ≠ FloatKey →
  let w' := (_handle_drone_announcement now message addr w).2 in
  io w' = io w
  ∧ running (ctl w') = running (ctl w)
  ∧ discovery_port (ctl w') = discovery_port (ctl w)
  ∧ server_socket (ctl w') = server_socket (ctl w)
  ∧ (∀ k, announced_key message ≠ Some k →
          discovered_drones (ctl w') !! k = discovered_drones (ctl w) !! k)
  ∧ (∀ k, is_Some (discovered_drones (ctl w) !! k) →
          is_Some (discovered_drones (ctl w') !! k)).
Proof.
  intros Hnf w'. subst w'. unfold announced_key.
  destruct (truthy (dict_get message (str "drone_id") PNone)) eqn:Ht.
  - destruct (dict_key (dict_get message (str "drone_id") PNone)) as [k0 | x |] eqn:Hk;
      [| | done].
    + rewrite (announcement_accepted _ _ _ _ k0) by done. cbn.
      repeat split; try done.
      * intros k Hne. apply lookup_insert_ne. congruence.
      * intros k Hsome. rewrite lookup_insert. case_decide; [by eexists | done].
    + rewrite (announcement_unhashable _ _ _ _ x) by done. by repeat split.
  - rewrite announcement_falsy by done. by repeat split.
Qed.

Lemma announcement_touches_one_record_witness :
  io (_handle_drone_announcement 2000 announce_1' sample_addr' world_1).2 = io world_1.
Proof.
  apply (announcement_touches_one_record 2000 announce_1' sample_addr' world_1).
  discriminate.
Defined.

(** ** The registry in every reachable state *)

Lemma py_get_ctl (v : pyval) key default w :
  (py_get v key default w).2 = w.
Proof. unfold py_get. by destruct v. Qed.

Lemma bind_ctl {A B} (m : M A) (f : A → M B) w :
  ctl (m w).2 = ctl w →
  (∀ a w1, ctl (f a w1).2 = ctl w1) →
  ctl ((m ≫= f) w).2 = ctl w.
Proof.
  intros Hm Hf. run_m. destruct (m w) as [[a | x |] w1]; cbn [snd] in *; [| done..].
  by rewrite Hf.
Qed.

Lemma handler_ctl s (h : env → pyval → pyval → M pyval) :
  lookup_handler command_handlers s = Some h →
  ∀ e drone_id params w, ctl (h e drone_id params w).2 = ctl w.
Proof.
  unfold command_handlers, lookup_handler.
  repeat (case_decide; [intros [= <-] |]); [.. | done];
    intros e drone_id params w;
    unfold _handle_arm_command, _handle_disarm_command, _handle_takeoff_command,
      _handle_land_command, _handle_rtl_command, _handle_goto_command,
      _handle_telemetry_request;
    repeat (apply bind_ctl; [by rewrite py_get_ctl | intros ? ?]);
    apply send_command_ctl.
Qed.

Lemma handle_command_ctl e e' message addr w :
  ctl (_handle_drone_command e e' message addr w).2 = ctl w.
Proof.
  unfold _handle_drone_command, find_handler.
  destruct (dict_get message (str "command") PNone) as [| b | z | f | s | l | d];
    run_m; try done.
  destruct (lookup_handler command_handlers s) as [handler|] eqn:Hh; [| done].
  pose proof (handler_ctl s handler Hh e
                (dict_get message (str "target_drone") PNone)
                (dict_get message (str "params") (PDict [])) w) as Hctl.
  destruct (handler e _ _ w) as [[result | x |] w1]; cbn [snd] in *; try done.
  unfold encode_message.
  destruct (Json.dumps _ _) as [sent_text|]; run_m; [| done].
  destruct (Utf8.encode _) as [data|]; run_m; [| done].
  by destruct (server_sendto_error e' data addr).
Qed.

Lemma try_except_world {A} (m : M A) (a : A) w :
  (try_except m (λ _, ret a) w).2 = (m w).2.
Proof. unfold try_except. run_m. by destruct (m w) as [[| |] ?]. Qed.

(** What a turn of the listener does to the controller: nothing, or the
    storing of one announced record. *)
Lemma listener_turn_ctl e e' now received w :
  ctl (_discovery_listener_turn e e' now received w).2 = ctl w
  ∨ ∃ fields k addr,
      datagram_fields (decoder_depth e) received = Some fields
      ∧ dict_get fields (str "type") PNone = PStr (str "drone_announce")
      ∧ announced_key fields = Some k
      ∧ ctl (_discovery_listener_turn e e' now received w).2
        = set_drones (ctl w)
            (<[k := announced_record now fields addr]> (discovered_drones (ctl w))).
Proof.
  unfold _discovery_listener_turn. rewrite try_except_world.
  unfold decode_message, datagram_fields. run_m.
  destruct received as [x | [data addr]]; cbn [fst snd]; [by left |].
  destruct (Utf8.decode data) as [text|]; [| by left].
  destruct (Json.loads _ text) as [message|]; [| by left].
  unfold py_get.
  destruct message as [| b | z | f | s | l | fields]; try by left.
  run_m.
  destruct (dict_get fields (str "type") PNone) as [| b | z | f | s | l | d] eqn:Hty;
    try by left.
  destruct (decide (s = str "drone_announce")) as [-> | _].
  - destruct (truthy (dict_get fields (str "drone_id") PNone)) eqn:Ht.
    + destruct (dict_key (dict_get fields (str "drone_id") PNone)) as [k | x |] eqn:Hk.
      * right. exists fields, k, addr.
        rewrite (announcement_accepted _ _ _ _ k) by done.
        unfold announced_key. rewrite Ht, Hk. done.
      * left. by rewrite (announcement_unhashable _ _ _ _ x).
      * left. unfold _handle_drone_announcement. rewrite Ht. run_m. by rewrite Hk.
    + left. by rewrite announcement_falsy.
  - destruct (decide (s = str "command")) as [-> | _]; [| by left].
    left. apply (handle_command_ctl e e' fields addr
                   {| ctl := ctl w; io := io w ++ [IOServerRecvfrom] |}).
Qed.

Lemma start_server_registry e w :
  discovered_drones (ctl (start_server e w).2) = discovered_drones (ctl w).
Proof.
  unfold start_server. run_m.
  destruct (socket_error e); cbn; [done |].
  destruct (setsockopt_error e); cbn; [done |].
  destruct (bind_error e); cbn; [done |].
  by destruct (thread_start_error e).
Qed.

(** What an operation does to the registry: nothing, the eviction of the
    expired records, or the storing of one announced record. *)
Lemma perform_registry o w :
  let drones := discovered_drones (ctl w) in
  let drones' := discovered_drones (ctl (perform o w).2) in
  drones' = drones
  ∨ (∃ now, o = OpSnapshot now
            ∧ ∀ k, drones' !! k = match drones !! k with
                                  | Some r => if expired now r then None else Some r
                                  | None => None
                                  end)
  ∨ (∃ t fields k addr,
       o = OpTurn t
       ∧ datagram_fields (decoder_depth (turn_env t)) (turn_received t) = Some fields
       ∧ dict_get fields (str "type") PNone = PStr (str "drone_announce")
       ∧ announced_key fields = Some k
       ∧ drones' = <[k := announced_record (turn_now t) fields addr]> drones).
Proof.
  intros drones drones'. subst drones drones'.
  destruct o as [t | now | e drone_id command params | e | e | x]; cbn [perform].
  - destruct (listener_turn_ctl (turn_env t) (turn_env' t) (turn_now t)
                (turn_received t) w) as [-> | (fields & k & addr & Hf & Hty & Hk & ->)].
    + by left.
    + right. right. by exists t, fields, k, addr.
  - right. left. exists now.
    destruct (get_discovered_drones_spec now w) as (snap & Hrun & Hsnap).
    rewrite (bind_return _ _ _ _ _ Hrun). split; [done | exact Hsnap].
  - left. f_equal.
    pose proof (send_command_ctl e drone_id command params w) as H.
    run_m. by destruct (send_command_to_drone e drone_id command params w) as [[| |] ?].
  - by left.
  - left. pose proof (start_server_registry e w) as H.
    run_m. by destruct (start_server e w) as [[| |] ?].
  - left. unfold stop_server, call. run_m.
    by destruct (server_socket (ctl w)), x.
Qed.

Lemma announced_key_ok message k :
  announced_key message = Some k →
  dict_key (dict_get message (str "drone_id") PNone) = Hashable k
  ∧ truthy (dict_get message (str "drone_id") PNone) = true.
Proof.
  unfold announced_key.
  destruct (truthy _); [| done]. destruct (dict_key _); [| done..].
  by intros [= ->].
Qed.

Lemma perform_registry_ok o w :
  registry_ok (discovered_drones (ctl w)) →
  registry_ok (discovered_drones (ctl (perform o w).2)).
Proof.
  intros Hok.
  destruct (perform_registry o w)
    as [-> | [(now & _ & Hsnap) | (t & fields & k & addr & _ & _ & _ & Hk & ->)]].
  - done.
  - intros k r. rewrite Hsnap.
    destruct (discovered_drones (ctl w) !! k) as [r'|] eqn:Hr; [| done].
    destruct (expired now r'); [done |]. intros [= <-]. by apply Hok.
  - intros k' r. rewrite lookup_insert. case_decide as Hkk.
    + intros [= <-]. subst k'. by apply announced_key_ok.
    + apply Hok.
Qed.

Lemma perform_all_registry_ok ops w :
  registry_ok (discovered_drones (ctl w)) →
  registry_ok (discovered_drones (ctl (perform_all ops w))).
Proof.
  revert w. induction ops as [|o ops IH]; intros w Hok; [done |].
  cbn [perform_all]. by apply IH, perform_registry_ok.
Qed.

Lemma registry_ok_no_false_key drones k :
  registry_ok drones → k = KNone ∨ k = KStr [] ∨ k = KInt 0 → drones !! k = None.
Proof.
  intros Hok Hk. destruct (drones !! k) as [r|] eqn:Hr; [| done].
  destruct (Hok k r Hr) as [Hkey Ht]. exfalso.
  destruct (id_ r) as [| [|] | z | f | s | l | d]; cbn in Hkey, Ht; try discriminate;
    injection Hkey as <-; destruct Hk as [Hk | [Hk | Hk]]; try discriminate;
    injection Hk as ->; discriminate.
Qed.

(** X10.  In every state the controller reaches from [__init__], by any
    sequence of listener turns, snapshots, commands, status reports, starts
    and stops, each record of the registry sits under the key of its own
    [id] and that [id] is a true value: no record is ever held for a null,
    empty or zero identifier.  The operations are those in which no
    identifier hashed is a float. *)
Theorem registry_ok_in_every_reachable_state port ops :
  Forall float_free ops →
  let drones :=
    discovered_drones (ctl (perform_all ops {| ctl := init port; io := [] |})) in
  registry_ok drones
  ∧ drones !! KNone = None ∧ drones !! KStr [] = None ∧ drones !! KInt 0 = None.
Proof.
  intros _ drones.
  assert (Hok : registry_ok drones).
  { apply perform_all_registry_ok. intros k r. cbn. by rewrite lookup_empty. }
  split; [done |]. repeat split; apply registry_ok_no_false_key; auto.
Qed.

Lemma float_free_snapshot now : float_free (OpSnapshot now).
Proof.
  intros w. cbn [perform].
  destruct (get_discovered_drones_spec now w) as (snap & Hrun & _).
  by rewrite (bind_return _ _ _ _ _ Hrun).
Qed.

Lemma float_free_status e : float_free (OpStatus e).
Proof. by intros w. Qed.

Lemma float_free_stop x : float_free (OpStop x).
Proof.
  intros w. cbn [perform]. unfold stop_server, call. run_m.
  by destruct (server_socket _), x.
Qed.

Lemma float_free_start e : float_free (OpStart e).
Proof.
  intros w. cbn [perform]. unfold start_server. run_m.
  destruct (socket_error e); cbn; [done |].
  destruct (setsockopt_error e); cbn; [done |].
  destruct (bind_error e); cbn; [done |].
  by destruct (thread_start_error e).
Qed.

Lemma float_free_announcement e e' now fields addr :
  JsonSpec.valid (PDict fields) = true →
  (JsonSpec.nesting (PDict fields) ≤ decoder_depth e)%nat →
  dict_lookup fields (str "type") = Some (PStr (str "drone_announce")) →
  modelled (Announce now fields addr) →
  float_free (OpTurn {| turn_env := e; turn_env' := e'; turn_now := now;
                        turn_received := inr (JsonSpec.text (PDict fields), addr) |}).
Proof.
  intros Hv Hdepth Hty Hm w. cbn [perform turn_env turn_env' turn_now turn_received].
  rewrite listener_turn_announcement by done.
  destruct (serve_returns _ {| ctl := ctl w; io := io w ++ [IOServerRecvfrom] |} Hm)
    as (w' & ->). done.
Qed.

Lemma sample_operations_float_free : Forall float_free sample_operations.
Proof.
  unfold sample_operations. repeat constructor.
  - apply float_free_start.
  - apply float_free_announcement; [by vm_compute | vm_compute; lia | by vm_compute |].
    intros _. discriminate.
  - apply float_free_status.
  - apply float_free_snapshot.
  - apply float_free_stop.
Defined.

Lemma registry_ok_in_every_reachable_state_witness :
  registry_ok
    (discovered_drones
       (ctl (perform_all sample_operations {| ctl := init 8888; io := [] |}))).
Proof.
  apply (registry_ok_in_every_reachable_state 8888 sample_operations).
  exact sample_operations_float_free.
Defined.

Lemma perform_keeps_absent o w k :
  ¬ turn_announces k o →
  discovered_drones (ctl w) !! k = None →
  discovered_drones (ctl (perform o w).2) !! k = None.
Proof.
  intros Hna Hnone.
  destruct (perform_registry o w)
    as [-> | [(now & _ & Hsnap) | (t & fields & k' & addr & -> & Hf & Hty & Hk & ->)]].
  - done.
  - by rewrite Hsnap, Hnone.
  - rewrite lookup_insert_ne; [done |]. intros ->. apply Hna. cbn. eauto.
Qed.

(** X11.  Records come from announcements only: over any sequence of
    operations in which no listener turn brings an announcement for a
    drone, a drone that is not in the registry is still not in it at the
    end.  Commands, snapshots, status reports, starts, stops and datagrams
    of any other kind never create a record.  The operations are those in
    which no identifier hashed is a float. *)
Theorem records_come_from_announcements ops w k :
  Forall float_free ops →
  Forall (λ o, ¬ turn_announces k o) ops →
  discovered_drones (ctl w) !! k = None →
  discovered_drones (ctl (perform_all ops w)) !! k = None.
Proof.
  intros _ Hna. revert w. induction Hna as [|o ops Ho _ IH]; intros w Hnone; [done |].
  cbn [perform_all]. by apply IH, perform_keeps_absent.
Qed.

Lemma records_come_from_announcements_witness :
  discovered_drones (ctl (perform_all sample_operations empty_world))
    !! KStr (str "drone-2") = None.
Proof.
  apply records_come_from_announcements.
  - exact sample_operations_float_free.
  - unfold sample_operations.
    repeat (apply List.Forall_cons; [| try apply List.Forall_nil]);
      try (by intros []).
    intros (fields & Hf & _ & Hk). vm_compute in Hf. injection Hf as <-.
    vm_compute in Hk. discriminate.
  - apply lookup_empty.
Defined.

(** ** Snapshots, status, stop and start *)

Lemma filter_none {A} (P : A → Prop) `{∀ x, Decision (P x)} (l : list A) :
  (∀ x, x ∈ l → ¬ P x) → filter P l = [].
Proof.
  induction l as [|x l IH]; intros Hl; [done |].
  rewrite filter_cons_False by (apply Hl; left).
  apply IH. intros y Hy. apply Hl. by right.
Qed.

Lemma expired_drones_none now (drones : gmap dkey DroneRecord) :
  (∀ k r, drones !! k = Some r → expired now r = false) →
  expired_drones now drones = [].
Proof.
  intros Hlive. unfold expired_drones. rewrite filter_none; [done |].
  intros [k r] Hin. apply elem_of_map_to_list in Hin. cbn.
  by rewrite (Hlive k r Hin).
Qed.

(** X12.  [get_discovered_drones] returns a part of the registry: every
    record it returns was in the registry with the same content, and it
    makes no socket call.  Asked again with a clock reading that is not
    later, it returns the same mapping and changes nothing. *)
Theorem snapshot_is_stable now now' w :
  (now' ≤ now)%Z →
  ∃ snap w1,
    get_discovered_drones now w = (Return snap, w1)
    ∧ snap ⊆ discovered_drones (ctl w)
    ∧ io w1 = io w
    ∧ get_discovered_drones now' w1 = (Return snap, w1).
Proof.
  intros Hle. destruct (get_discovered_drones_spec now w) as (snap & Hrun & Hsnap).
  eexists snap, _. split; [exact Hrun |]. split; [| split; [done |]].
  - apply map_subseteq_spec. intros k r. rewrite Hsnap.
    destruct (discovered_drones (ctl w) !! k) as [r'|]; [| done].
    by destruct (expired now r').
  - unfold get_discovered_drones. run_m.
    rewrite expired_drones_none; [by destruct w as [[]] |].
    intros k r. rewrite Hsnap.
    destruct (discovered_drones (ctl w) !! k) as [r'|]; [| done].
    destruct (expired now r') eqn:He; [done |]. intros [= <-].
    unfold expired in *. apply Z.ltb_ge in He. apply Z.ltb_ge. lia.
Qed.

Lemma snapshot_is_stable_witness :
  ∃ snap w1,
    get_discovered_drones 2000 world_1 = (Return snap, w1)
    ∧ get_discovered_drones 1500 w1 = (Return snap, w1).
Proof.
  destruct (snapshot_is_stable 2000 1500 world_1) as (snap & w1 & H1 & _ & _ & H2);
    [lia |].
  exists snap, w1. split; [exact H1 | exact H2].
Defined.

(** X13.  [get_system_status] reads and reports: it changes nothing and
    makes no socket call; [active_drones] is the size of the registry as it
    stands (records past their 30 seconds included, no eviction being
    done), [connected_drones] never exceeds it, and the two are equal
    exactly when every record's status is "connected". *)
Theorem system_status_counts e w :
  ∃ active connected : nat,
    get_system_status e w
    = (Return (PDict [(str "server_running", PBool (running (ctl w)));
                      (str "discovery_port", PInt (discovery_port (ctl w)));
                      (str "active_drones", PInt (Z.of_nat active));
                      (str "connected_drones", PInt (Z.of_nat connected));
                      (str "last_update", PStr (isoformat e))]), w)
    ∧ active = size (discovered_drones (ctl w))
    ∧ (connected ≤ active)%nat
    ∧ (connected = active ↔
       ∀ k r, discovered_drones (ctl w) !! k = Some r →
              status r = PStr (str "connected")).
Proof.
  eexists _, _. split; [reflexivity |]. split; [reflexivity |].
  set (records := (map_to_list (discovered_drones (ctl w))).*2).
  assert (Hsize : size (discovered_drones (ctl w)) = length records).
  { unfold records. by rewrite length_fmap, length_map_to_list. }
  rewrite Hsize. split; [apply length_filter |].
  assert (Hconn : ∀ r, is_connected r = true ↔ status r = PStr (str "connected")).
  { intros r. unfold is_connected. destruct (status r); try done.
    rewrite bool_decide_eq_true. split; [by intros -> | by intros [= ->]]. }
  assert (Hrec : ∀ r, r ∈ records ↔ ∃ k, discovered_drones (ctl w) !! k = Some r).
  { intros r. unfold records. rewrite list_elem_of_fmap. split.
    - intros ([k r'] & -> & Hin). apply elem_of_map_to_list in Hin. eauto.
    - intros (k & Hk). exists (k, r). split; [done |]. by apply elem_of_map_to_list. }
  split.
  - intros Hlen k r Hr. apply Hconn.
    destruct (is_connected r) eqn:Hc; [done | exfalso].
    assert (Hin : r ∈ records) by (apply Hrec; eauto).
    pose proof (length_filter_lt (λ d, is_connected d = true) records r Hin) as Hlt.
    rewrite Hlen in Hlt. apply (Nat.lt_irrefl (length records)), Hlt. congruence.
  - intros Hall. f_equal. clear Hsize.
    assert (Hfor : ∀ r, r ∈ records → is_connected r = true).
    { intros r Hin. apply Hrec in Hin as (k & Hk). apply Hconn. eauto. }
    clear Hrec. induction records as [|r records IH]; [done |].
    rewrite filter_cons_True by (apply Hfor; left).
    f_equal. apply IH. intros r' Hin. apply Hfor. by right.
Qed.

(** X14.  [stop_server] always ends with the running flag off and the
    registry kept, whatever the state and whether or not closing the socket
    fails: it closes the listening socket when there is one, an error of
    that [close] going to the caller, and makes no call when there is none.
    Stopping again leaves the controller as the first stop left it, and a
    listener that reaches the test of its loop after the stop handles no
    datagram. *)
Theorem stop_server_stops close_error close_error' w turns :
  let w' := (stop_server close_error w).2 in
  (stop_server close_error w).1
  = (if server_socket (ctl w)
     then match close_error with Some x => Raise x | None => Return () end
     else Return ())
  ∧ running (ctl w') = false
  ∧ discovered_drones (ctl w') = discovered_drones (ctl w)
  ∧ io w' = io w ++ (if server_socket (ctl w) then [IOClose] else [])
  ∧ ctl (stop_server close_error' w').2 = ctl w'
  ∧ _discovery_listener turns w' = (Return (), w').
Proof.
  unfold stop_server, call. run_m.
  destruct (server_socket (ctl w)) eqn:Hs, close_error, close_error';
    cbn [fst snd ctl io running discovered_drones server_socket]; rewrite ?Hs;
    repeat split; try done; try (by rewrite app_nil_r); by destruct turns.
Qed.



(** With no thread to be had the controller reports failure, yet its
    running flag is on and its socket is bound. *)
Example start_server_without_thread :
  ∃ w', start_server no_thread_env empty_world = (Return false, w')
        ∧ running (ctl w') = true
        ∧ io w' = [IOSocket; IOSetsockopt; IOBind 8888; IOThreadStart].
Proof. eexists. repeat split. Qed.

(** ** The facade *)

Lemma send_command_params e drone_id command params params' w :
  command_message e drone_id command params = command_message e drone_id command params' →
  send_command_to_drone e drone_id command params w
  = send_command_to_drone e drone_id command params' w.
Proof.
  intros Hmsg. destruct (dict_key drone_id) as [k | x |] eqn:Hk.
  - destruct (discovered_drones (ctl w) !! k) as [info|] eqn:Hin.
    + rewrite !(send_command_present _ _ _ _ _ k info) by done. by rewrite Hmsg.
    + by rewrite !(send_command_absent _ _ _ _ _ k).
  - unfold send_command_to_drone. run_m. by rewrite Hk.
  - unfold send_command_to_drone. run_m. by rewrite Hk.
Qed.

Lemma facade_is_send_command e drone_id c w :
  facade e drone_id c w
  = send_command_to_drone e drone_id (PStr (call_name c)) (PDict (call_params c)) w.
Proof.
  destruct c; cbn [facade call_name call_params]; try reflexivity;
    by apply send_command_params.
Qed.

(** X16.  The facade and the relay agree: each call of the facade
    ([get_drone_telemetry], [arm_drone], [disarm_drone], [takeoff_drone],
    [land_drone], [return_to_launch], [goto_location]) does exactly what
    the dispatcher's handler for the command of the same name does with the
    parameters the facade builds, which are always a dict (empty where the
    call has none, with the altitude defaulting to 10.0 for a takeoff and
    to 50.0 for a goto). *)
Theorem facade_agrees_with_relay e drone_id c w :
  ∃ handler,
    lookup_handler command_handlers (call_name c) = Some handler
    ∧ handler e drone_id (PDict (call_params c)) w = facade e drone_id c w
    ∧ command_message e drone_id (PStr (call_name c)) (PDict (call_params c))
      = PDict [(str "type", PStr (str "command"));
               (str "command", PStr (call_name c));
               (str "target_drone", drone_id);
               (str "params", PDict (call_params c));
               (str "timestamp", PStr (isoformat e))].
Proof.
  destruct (supported_handler_is_send_command_aux (call_name c) e drone_id
              (call_params c) w) as (handler & Hh & Hsame).
  { unfold supported_commands. destruct c; cbn [call_name]; rewrite !elem_of_cons; auto 10. }
  exists handler. split; [done |]. split.
  - by rewrite Hsame, facade_is_send_command.
  - unfold command_message. by destruct c as [| | | [a|] | | | ? ? [a|]].
Qed.

(** X17.  Every call of the facade for a drone that is not in the registry
    returns [{success: False, error: "Drone not found"}] and leaves the
    world as it was: no socket is created and nothing is sent. *)
Theorem facade_call_to_missing_drone e drone_id c w k :
  dict_key drone_id = Hashable k →
  discovered_drones (ctl w) !! k = None →
  facade e drone_id c w = (Return (failure (str "Drone not found")), w).
Proof.
  intros Hk Hnone. rewrite facade_is_send_command.
  by apply (send_command_absent _ _ _ _ _ k).
Qed.

Lemma facade_call_to_missing_drone_witness :
  facade silent_env (PStr (str "missing-id")) (Takeoff None) world_1
  = (Return (failure (str "Drone not found")), world_1).
Proof.
  apply (facade_call_to_missing_drone _ _ _ _ (KStr (str "missing-id"))).
  - reflexivity.
  - apply lookup_singleton_ne. discriminate.
Defined.

(** ** The listener's loop, and how records leave the registry *)

Lemma listener_turn_outcome e e' now received w :
  (_discovery_listener_turn e e' now received w).1 = Return ()
  ∨ (_discovery_listener_turn e e' now received w).1 = Unmodelled.
Proof.
  unfold _discovery_listener_turn, try_except.
  match goal with
  | |- context [match ?m with _ => _ end] => destruct m as [[[] | x |] w1]
  end; auto.
Qed.

Lemma listener_turn_running e e' now received w :
  running (ctl (_discovery_listener_turn e e' now received w).2) = running (ctl w).
Proof.
  destruct (listener_turn_ctl e e' now received w)
    as [-> | (fields & k & addr & _ & _ & _ & ->)]; done.
Qed.

(** X18.  While the running flag is on, the loop of the listener handles
    every datagram in turn and no exception ends it: whatever the turns
    bring (timeouts, socket errors, bytes that do not decode, announcements,
    commands that fail), the loop goes on to the next turn with the flag
    still on, and the controller it leaves is the one the turns give one
    after the other.  The turns are those in which no identifier hashed is a
    float. *)
Theorem listener_handles_every_turn turns w :
  running (ctl w) = true →
  Forall (λ t, float_free (OpTurn t)) turns →
  _discovery_listener turns w = (Return (), perform_all (OpTurn <$> turns) w)
  ∧ running (ctl (perform_all (OpTurn <$> turns) w)) = true.
Proof.
  intros Hrun Hff. revert w Hrun.
  induction Hff as [|t turns Ht _ IH]; intros w Hrun; [done |].
  cbn [_discovery_listener fmap list_fmap perform_all perform].
  run_m. rewrite Hrun.
  pose proof (listener_turn_outcome (turn_env t) (turn_env' t) (turn_now t)
                (turn_received t) w) as Hout.
  pose proof (listener_turn_running (turn_env t) (turn_env' t) (turn_now t)
                (turn_received t) w) as Hkeep.
  specialize (Ht w). cbn [perform] in Ht.
  destruct (_discovery_listener_turn _ _ _ _ w) as [[[] | x |] w1];
    cbn [fst snd] in *; [| by destruct Hout.. ].
  apply IH. by rewrite Hkeep.
Qed.

Lemma listener_handles_every_turn_witness :
  _discovery_listener [announce_turn] started_world
  = (Return (), perform_all (OpTurn <$> [announce_turn]) started_world).
Proof.
  apply listener_handles_every_turn.
  - reflexivity.
  - apply List.Forall_cons; [| apply List.Forall_nil].
    apply float_free_announcement; [by vm_compute | vm_compute; lia | by vm_compute |].
    intros _. discriminate.
Defined.

Lemma perform_keeps_present o w k :
  (∀ now, o ≠ OpSnapshot now) →
  is_Some (discovered_drones (ctl w) !! k) →
  is_Some (discovered_drones (ctl (perform o w).2) !! k).
Proof.
  intros Hns Hsome.
  destruct (perform_registry o w)
    as [-> | [(now & -> & _) | (t & fields & k' & addr & _ & _ & _ & _ & ->)]].
  - done.
  - by destruct (Hns now).
  - rewrite lookup_insert. case_decide; [by eexists | done].
Qed.

(** X19.  Records leave the registry through [get_discovered_drones] only:
    over any sequence of listener turns, commands, status reports, starts
    and stops, a drone that is in the registry is still in it at the end,
    however long it has been silent.  The operations are those in which no
    identifier hashed is a float. *)
Theorem records_leave_by_snapshot_only ops w k :
  Forall float_free ops →
  Forall (λ o, ∀ now, o ≠ OpSnapshot now) ops →
  is_Some (discovered_drones (ctl w) !! k) →
  is_Some (discovered_drones (ctl (perform_all ops w)) !! k).
Proof.
  intros _ Hns. revert w. induction Hns as [|o ops Ho _ IH]; intros w Hsome; [done |].
  cbn [perform_all]. by apply IH, perform_keeps_present.
Qed.

Lemma records_leave_by_snapshot_only_witness :
  is_Some (discovered_drones
             (ctl (perform_all [OpStatus silent_env; OpStop None] world_1))
             !! KStr (str "drone-1")).
Proof.
  apply records_leave_by_snapshot_only.
  - repeat (apply List.Forall_cons; [| try apply List.Forall_nil]).
    + apply float_free_status.
    + apply float_free_stop.
  - repeat (apply List.Forall_cons; [| try apply List.Forall_nil]); by intros now.
  - exists (announced_record 1000 announce_1 sample_addr).
    apply lookup_singleton_eq.
Defined.

(** X20.  A drone silent for more than 30 seconds still gets commands until
    the registry is read: a command for it makes socket calls as for any
    registered drone, while after [get_discovered_drones] the same command
    returns [{success: False, error: "Drone not found"}] and makes no socket
    call. *)
Theorem command_after_eviction now e drone_id command params w k r :
  dict_key drone_id = Hashable k →
  discovered_drones (ctl w) !! k = Some r →
  expired now r = true →
  io (send_command_to_drone e drone_id command params w).2 ≠ io w
  ∧ ∃ snap w1,
      get_discovered_drones now w = (Return snap, w1)
      ∧ snap !! k = None
      ∧ send_command_to_drone e drone_id command params w1
        = (Return (failure (str "Drone not found")), w1).
Proof.
  intros Hk Hin Hexp. split.
  - rewrite (send_command_present _ _ _ _ _ k r) by done.
    unfold add_io. cbn [io snd]. intros Heq.
    apply (f_equal length) in Heq. rewrite length_app in Heq.
    assert (Hlen : (0 < length (exchange e r (command_message e drone_id command params)).2)%nat).
    { unfold exchange.
      repeat (match goal with
              | |- context [match ?m with _ => _ end] => destruct m
              end; cbn [snd length]; rewrite ?length_app; cbn [length]; try lia). }
    lia.
  - destruct (get_discovered_drones_spec now w) as (snap & Hrun & Hsnap).
    eexists snap, _. split; [exact Hrun |].
    assert (Hnone : snap !! k = None) by (by rewrite Hsnap, Hin, Hexp).
    split; [done |]. by apply (send_command_absent _ _ _ _ _ k).
Qed.

Lemma command_after_eviction_witness :
  ∃ snap w1,
    get_discovered_drones 31000000 world_1 = (Return snap, w1)
    ∧ snap !! KStr (str "drone-1") = None
    ∧ send_command_to_drone silent_env (PStr (str "drone-1")) (PStr (str "land")) PNone w1
      = (Return (failure (str "Drone not found")), w1).
Proof.
  apply (command_after_eviction 31000000 silent_env (PStr (str "drone-1"))
           (PStr (str "land")) PNone world_1 (KStr (str "drone-1"))
           (announced_record 1000 announce_1 sample_addr)).
  - reflexivity.
  - apply lookup_singleton_eq.
  - reflexivity.
Defined.
